(** * UpSetPlot.py: the membership normalizer, the intersection aggregation
      and the command-line driver

    A shallow embedding of [src/UpSetPlot.py].  Data frames are Python
    objects that the script allocates and assigns into, so they live in a
    store and the functions that touch them are written in a small state
    and error monad.  Cell values are the scalars a loaded table holds. *)

From Stdlib Require Import ZArith Lia Ascii String Floats.SpecFloat.
From stdpp Require Import base option list strings.

Local Open Scope string_scope.
Local Open Scope Z_scope.
Local Open Scope list_scope.

(** ** Python scalars *)

Module Py.

(** The cell values of a table read from CSV, TSV or Excel, or built by
    [create_example_demo]: [int], [float] (binary64, [nan] is the missing
    value of pandas), [str], [bool] and [None]. *)
Inductive value : Type :=
| VInt (z : Z)
| VFloat (f : spec_float)
| VStr (s : string)
| VBool (b : bool)
| VNone.

(** [bool] is a subclass of [int]: [True == 1] and [False == 0]. *)
Definition as_int (v : value) : option Z :=
  match v with
  | VInt z => Some z
  | VBool b => Some (Z.b2z b)
  | _ => None
  end.

(** [float == int] compares the exact values. *)
Definition float_is_int (f : spec_float) (z : Z) : bool :=
  match f with
  | S754_zero _ => z =? 0
  | S754_infinity _ | S754_nan => false
  | S754_finite s m e =>
      let mz := if s then Z.neg m else Z.pos m in
      if 0 <=? e then z =? mz * 2 ^ e else mz =? z * 2 ^ (- e)
  end.

(** Python's [==] on scalars. *)
Definition eq (x y : value) : bool :=
  match x, y with
  | VStr s, VStr t => bool_decide (s = t)
  | VNone, VNone => true
  | VFloat f, VFloat g => SFeqb f g
  | VFloat f, _ => from_option (float_is_int f) false (as_int y)
  | _, VFloat g => from_option (float_is_int g) false (as_int x)
  | _, _ =>
      match as_int x, as_int y with
      | Some a, Some b => a =? b
      | _, _ => false
      end
  end.

(** [x in s] for a set literal [s] of scalars: every scalar hashes, numbers
    that are equal hash alike, so membership is equality with an element. *)
Definition contains (s : list value) (x : value) : bool :=
  existsb (eq x) s.

(** Truth value of a scalar in a condition. *)
Definition truthy (v : value) : bool :=
  match v with
  | VInt z => negb (z =? 0)
  | VFloat (S754_zero _) => false
  | VFloat _ => true
  | VStr s => negb (bool_decide (s = ""))
  | VBool b => b
  | VNone => false
  end.

(** The binary64 number [1.0]: mantissa [2^52], exponent [-52]. *)
Definition one_float : spec_float := S754_finite false 4503599627370496 (-52).

End Py.

Import Py.

(** ** The value normalizer (the lambda of [prepare_boolean_matrix]) *)

Definition true_values : list value :=
  [VInt 1; VStr "1"; VStr "yes"; VStr "YES"; VStr "Yes"; VBool true].

(** Assigned by the source and never read. *)
Definition false_values : list value :=
  [VInt 0; VStr "0"; VStr "no"; VStr "NO"; VStr "No"; VBool false].

(** [lambda x: True if x in true_values else False] *)
Definition normalize (x : value) : bool :=
  if contains true_values x then true else false.


(** ** Data frames

    A frame has an index of [nrows] rows and an ordered list of labelled
    columns, each holding one cell per row. *)

Record DataFrame : Type := mkDataFrame {
  nrows : nat;
  series : list (string * list value)
}.

(** [df.columns] *)
Definition df_columns (df : DataFrame) : list string := (series df).*1.

Fixpoint lookup_series (cols : list (string * list value)) (col : string)
  : option (list value) :=
  match cols with
  | [] => None
  | (c, vs) :: rest =>
      if bool_decide (c = col) then Some vs else lookup_series rest col
  end.

(** [df[col]], [None] standing for the [KeyError] of a missing label. *)
Definition get_column (df : DataFrame) (col : string) : option (list value) :=
  lookup_series (series df) col.

(** [df[col] = vs]: the column of that label is replaced, a new label is
    appended. *)
Definition set_column (df : DataFrame) (col : string) (vs : list value)
  : DataFrame :=
  if bool_decide (col ∈ df_columns df)
  then mkDataFrame (nrows df)
         (map (λ kv, if bool_decide (kv.1 = col) then (col, vs) else kv)
              (series df))
  else mkDataFrame (nrows df) (series df ++ [(col, vs)]).

(** The columns that carry a label: none for a label the frame lacks, one
    in a frame with distinct labels, several when the label is repeated. *)
Definition columns_labelled (df : DataFrame) (col : string)
  : list (string * list value) :=
  List.filter (λ kv, bool_decide (kv.1 = col)) (series df).

(** [df[columns]]: for each listed label, in the listed order, every column
    that carries it, over the same index; [None] when a label is missing. *)
Definition select_columns (df : DataFrame) (columns : list string)
  : option DataFrame :=
  (λ found, mkDataFrame (nrows df) (concat found))
    <$> mapM (λ c, match columns_labelled df c with
                   | [] => None
                   | found => Some found
                   end) columns.

(** [row[col]] for the row at position [i]. *)
Definition cell (df : DataFrame) (i : nat) (col : string) : option value :=
  get_column df col ≫= (λ vs, vs !! i).

(** [create_example_demo()] *)
Definition create_example_demo : DataFrame :=
  mkDataFrame 6
    [("Gene", VStr <$> ["G1"; "G2"; "G3"; "G4"; "G5"; "G6"]);
     ("Condition_A", VInt <$> [1; 1; 0; 1; 0; 1]);
     ("Condition_B", VInt <$> [0; 1; 1; 1; 0; 0]);
     ("Condition_C", VInt <$> [1; 0; 1; 1; 1; 0])].

Definition demo_columns : list string :=
  ["Condition_A"; "Condition_B"; "Condition_C"].

(** ** Intersection records *)

(** A membership pattern as the script builds it: the labels whose flag is
    set, in column order. *)
Definition pattern : Type := list string.

Definition record : Type := (pattern * nat)%type.

(** The comprehension [[col for col in boolean_df.columns if row[col]]] for
    the row at position [i]. *)
Definition row_members (bdf : DataFrame) (i : nat) : pattern :=
  List.filter (λ col, from_option truthy false (cell bdf i col))
              (df_columns bdf).

(** [boolean_df.apply(lambda row: ..., axis=1)]: one list per row of the
    index. *)
Definition membership_lists (bdf : DataFrame) : list pattern :=
  row_members bdf <$> seq 0 (nrows bdf).

(** Patterns are compared as sets of labels. *)
Definition same_pattern (p q : pattern) : bool :=
  forallb (λ x, bool_decide (x ∈ q)) p && forallb (λ x, bool_decide (x ∈ p)) q.

Fixpoint count_pattern (p : pattern) (acc : list record) : list record :=
  match acc with
  | [] => [(p, 1%nat)]
  | (q, n) :: rest =>
      if same_pattern p q then (q, S n) :: rest
      else (q, n) :: count_pattern p rest
  end.

(** Modelled from the spec: [from_memberships] and the grouping inside
    [UpSet] belong to the upsetplot package, which is not under src/.  Rows
    are grouped by membership pattern (set equality) and each distinct
    observed pattern, the empty one included, is counted; patterns are kept
    in order of first appearance. *)
Definition from_memberships (memberships : list pattern) : list record :=
  foldl (λ acc p, count_pattern p acc) [] memberships.

Fixpoint insert_by_count (r : record) (l : list record) : list record :=
  match l with
  | [] => [r]
  | r' :: l' =>
      if (r'.2 <=? r.2)%nat then r :: l else r' :: insert_by_count r l'
  end.

(** Modelled from the spec: the ordering done by [UpSet(...,
    sort_by='cardinality')] is upsetplot code, not under src/.  The source
    asks for cardinality alone: records are put in descending order of count
    and records of equal count keep the order they came in. *)
Definition sort_by_cardinality (l : list record) : list record :=
  foldr insert_by_count [] l.

(** The records [plot_upset] hands to the renderer. *)
Definition intersection_records (bdf : DataFrame) : list record :=
  sort_by_cardinality (from_memberships (membership_lists bdf)).

(** ** The store and the monad of the script *)

Definition loc : Type := nat.

Inductive event : Type :=
| EPrint (line : string)
| ESaveFig (path : string) (plot : list record).

Record state : Type := mkState {
  heap : list DataFrame;
  events : list event
}.

(** [SysExit msg] is [sys.exit(msg)]: the message goes to stderr and the
    status is 1.  [Raise] is an uncaught exception. *)
Inductive result (A : Type) : Type :=
| Ok (a : A)
| SysExit (msg : string)
| Raise (exn : string).
Arguments Ok {A} a.
Arguments SysExit {A} msg.
Arguments Raise {A} exn.

Definition exit_status {A} (r : result A) : Z :=
  match r with
  | Ok _ => 0
  | SysExit _ | Raise _ => 1
  end.

Definition M (A : Type) : Type := state → result A * state.

#[export] Instance M_ret : MRet M := λ A a st, (Ok a, st).

#[export] Instance M_bind : MBind M := λ A B k m st,
  match m st with
  | (Ok a, st') => k a st'
  | (SysExit msg, st') => (SysExit msg, st')
  | (Raise e, st') => (Raise e, st')
  end.

Definition sys_exit {A} (msg : string) : M A := λ st, (SysExit msg, st).
Definition raise {A} (exn : string) : M A := λ st, (Raise exn, st).

Definition emit (e : event) : M unit :=
  λ st, (Ok tt, mkState (heap st) (events st ++ [e])).

Definition alloc (d : DataFrame) : M loc :=
  λ st, (Ok (length (heap st)), mkState (heap st ++ [d]) (events st)).

Definition read_frame (l : loc) : M DataFrame :=
  λ st, match heap st !! l with
        | Some d => (Ok d, st)
        | None => (Raise "NameError", st)
        end.

Definition write_frame (l : loc) (d : DataFrame) : M unit :=
  λ st, (Ok tt, mkState (<[l := d]> (heap st)) (events st)).

(** [for x in xs: body(x)] *)
Fixpoint for_each {A} (xs : list A) (body : A → M unit) : M unit :=
  match xs with
  | [] => mret tt
  | x :: rest => body x ≫= λ _, for_each rest body
  end.

(** ** prepare_boolean_matrix *)

(** [matrix[col] = matrix[col].apply(lambda x: ...)] on the frame at
    [matrix].  When one column carries the label, [matrix[col]] is that
    column and the lambda is applied to its cells.  When several do,
    [matrix[col]] is a frame, [apply] hands each of its columns to the
    lambda, and [x in true_values] fails to hash a column: [TypeError]. *)
Definition normalize_column (matrix : loc) (col : string) : M unit :=
  m ← read_frame matrix;
  match columns_labelled m col with
  | [] => raise "KeyError"
  | [(_, vs)] =>
      write_frame matrix (set_column m col (VBool ∘ normalize <$> vs))
  | _ => raise "TypeError"
  end.

Definition prepare_boolean_matrix (df : loc) (columns : list string) : M loc :=
  d ← read_frame df;
  match select_columns d columns with
  | None => raise "KeyError"
  | Some selected =>
      matrix ← alloc selected;
      for_each columns (normalize_column matrix) ≫= λ _,
      mret matrix
  end.

(** ** plot_upset

    The call into the plotting package is the event [ESaveFig], carrying the
    records of the matrix.  The exceptions that package raises on frames it
    refuses are not part of the model, so no statement below rests on
    [plot_upset] succeeding on an arbitrary matrix. *)

Definition plot_upset (boolean_df : loc) (output : string) : M unit :=
  bdf ← read_frame boolean_df;
  let upset := intersection_records bdf in
  emit (ESaveFig output upset) ≫= λ _,
  emit (EPrint ("UpSet plot saved as: " +:+ output)).

(** ** Paths

    [os.path.splitext(path)[1]] of the POSIX path module: the extension
    starts at the last dot of the last path component, leading dots of that
    component not counting. *)

Fixpoint after_last (c : ascii) (cs : list ascii) : option (list ascii) :=
  match cs with
  | [] => None
  | x :: rest =>
      match after_last c rest with
      | Some tl => Some tl
      | None => if Ascii.eqb x c then Some rest else None
      end
  end.

Fixpoint drop_leading_dots (cs : list ascii) : list ascii :=
  match cs with
  | x :: rest => if Ascii.eqb x "." then drop_leading_dots rest else cs
  | [] => []
  end.

Definition splitext_ext (path : string) : string :=
  let cs := list_ascii_of_string path in
  let base := default cs (after_last "/" cs) in
  match after_last "." (drop_leading_dots base) with
  | Some e => string_of_list_ascii ("."%char :: e)
  | None => ""
  end.

(** [str.lower()] on the ASCII letters. *)
Definition lower_ascii (c : ascii) : ascii :=
  let n := nat_of_ascii c in
  if ((65 <=? n) && (n <=? 90))%nat then ascii_of_nat (n + 32) else c.

Definition lower (s : string) : string :=
  string_of_list_ascii (lower_ascii <$> list_ascii_of_string s).

Definition TAB : string := String (ascii_of_nat 9) "".

(** ** The command line *)

Record Args : Type := mkArgs {
  file : option string;
  columns : option (list string);
  output : string;
  demo : bool
}.

Section Script.

(** The collaborators of the loader: the file system test and the pandas
    readers, each returning the table it parses from the path. *)
Variable os_path_exists : string → bool.
Variable read_csv : string → string → DataFrame.
Variable read_excel : string → DataFrame.

Definition load_dataset (path : string) : M loc :=
  if negb (os_path_exists path)
  then sys_exit ("Error: File not found → " +:+ path)
  else
    let ext := lower (splitext_ext path) in
    if bool_decide (ext ∈ [".csv"]) then alloc (read_csv path ",")
    else if bool_decide (ext ∈ [".tsv"; ".txt"]) then alloc (read_csv path TAB)
    else if bool_decide (ext ∈ [".xls"; ".xlsx"]) then alloc (read_excel path)
    else sys_exit "Unsupported file format. Use CSV/TSV/Excel.".

(** [for col in columns: if col not in df.columns: sys.exit(...)] *)
Definition check_columns (df : loc) (cols : list string) : M unit :=
  for_each cols (λ col,
    d ← read_frame df;
    if bool_decide (col ∈ df_columns d) then mret tt
    else sys_exit ("Error: Column not found → " +:+ col)).

(** The [if args.demo: ... else: ...] of [main], which binds [df] and
    [columns]. *)
Definition main_input (args : Args) : M (loc * list string) :=
  if demo args then
    emit (EPrint "Running in demo mode...") ≫= λ _,
    df ← alloc create_example_demo;
    mret (df, demo_columns)
  else
    match file args with
    | None | Some "" => sys_exit "Use --file or enable --demo mode."
    | Some path =>
        df ← load_dataset path;
        match columns args with
        | None | Some [] => sys_exit "Specify column names using --columns."
        | Some cols => check_columns df cols ≫= λ _, mret (df, cols)
        end
    end.

(** [main] from the point where [parser.parse_args()] has returned [args]:
    the usage errors of argparse, which end the process with status 2
    before that point, are not part of the model. *)
Definition main (args : Args) : M unit :=
  '(df, cols) ← main_input args;
  boolean_df ← prepare_boolean_matrix df cols;
  plot_upset boolean_df (output args).

(** *** Vocabulary of the statements about the command line *)

(** [args.file] and [args.columns] when they are truthy. *)
Definition file_given (args : Args) : option string :=
  match file args with
  | None | Some "" => None
  | Some path => Some path
  end.

Definition columns_given (args : Args) : option (list string) :=
  match columns args with
  | None | Some [] => None
  | Some cols => Some cols
  end.

(** The table read for a path whose extension the loader accepts. *)
Definition loaded_table (path : string) : option DataFrame :=
  let ext := lower (splitext_ext path) in
  if bool_decide (ext ∈ [".csv"]) then Some (read_csv path ",")
  else if bool_decide (ext ∈ [".tsv"; ".txt"]) then Some (read_csv path TAB)
  else if bool_decide (ext ∈ [".xls"; ".xlsx"]) then Some (read_excel path)
  else None.

(** The first requested label that is not a column of the table. *)
Definition first_missing (d : DataFrame) (cols : list string) : option string :=
  List.find (λ col, negb (bool_decide (col ∈ df_columns d))) cols.

(** The error cases of a run. *)
Definition file_not_given (args : Args) : Prop := file_given args = None.

Definition file_not_found (args : Args) : Prop :=
  ∃ path, file_given args = Some path ∧ os_path_exists path = false.

Definition unsupported_extension (args : Args) : Prop :=
  ∃ path, file_given args = Some path ∧ loaded_table path = None.

Definition columns_not_given (args : Args) : Prop := columns_given args = None.

Definition column_absent (args : Args) : Prop :=
  ∃ path d cols col,
    file_given args = Some path ∧ loaded_table path = Some d ∧
    columns_given args = Some cols ∧ col ∈ cols ∧ col ∉ df_columns d.

(** The checks of [main] as a decision table: the exit the run makes, or
    [Ok] when it goes on to [prepare_boolean_matrix] (see [main_exit]). *)
Definition main_outcome (args : Args) : result unit :=
  if demo args then Ok tt
  else
    match file_given args with
    | None => SysExit "Use --file or enable --demo mode."
    | Some path =>
        if negb (os_path_exists path)
        then SysExit ("Error: File not found → " +:+ path)
        else
          match loaded_table path with
          | None => SysExit "Unsupported file format. Use CSV/TSV/Excel."
          | Some d =>
              match columns_given args with
              | None => SysExit "Specify column names using --columns."
              | Some cols =>
                  match first_missing d cols with
                  | Some col => SysExit ("Error: Column not found → " +:+ col)
                  | None => Ok tt
                  end
              end
          end
    end.

End Script.

(** A file system in which every path exists; the delimited reader returns
    the demo table for a tab-separated file and an empty table otherwise. *)
Definition every_path_exists (path : string) : bool := true.

Definition tab_reader (path sep : string) : DataFrame :=
  if bool_decide (sep = TAB) then create_example_demo else mkDataFrame 0 [].

Definition sheet_reader (path : string) : DataFrame := mkDataFrame 0 [].

Definition initial_state : state := mkState [] [].

(** A store that holds the demo table alone, at location 0. *)
Definition demo_state : state := mkState [create_example_demo] [].

(** Three command lines: the demo, a run with no [--file], and a run on a
    text file with no [--columns]. *)
Definition demo_args : Args := mkArgs None None "upset_plot.png" true.

Definition no_file_args : Args :=
  mkArgs None (Some ["Condition_A"]) "upset_plot.png" false.

Definition no_columns_args : Args :=
  mkArgs (Some "Data/genes.TXT") None "upset_plot.png" false.

(** A run on a text file that names one of its columns twice. *)
Definition repeated_label_args : Args :=
  mkArgs (Some "Data/genes.TXT")
         (Some ["Condition_A"; "Condition_A"; "Condition_B"]) "genes.png" false.

(** The matrix [prepare_boolean_matrix] builds from the demo table and the
    demo columns (see [demo_matrix_prepared]). *)
Definition demo_boolean_matrix : DataFrame :=
  mkDataFrame 6
    [("Condition_A", VBool <$> [true; true; false; true; false; true]);
     ("Condition_B", VBool <$> [false; true; true; true; false; false]);
     ("Condition_C", VBool <$> [true; false; true; true; true; false])].

(** A matrix of three rows over one set, two of them members. *)
Definition skewed_matrix : DataFrame :=
  mkDataFrame 3 [("A", VBool <$> [true; true; false])].

(** ** Vocabulary of the statements *)

(** The sum of the counts of a sequence of records. *)
Definition total_count (l : list record) : nat := sum_list (l.*2).

(** Two patterns are the same set of labels. *)
Definition same_set (p q : pattern) : Prop := ∀ x, x ∈ p ↔ x ∈ q.

(** No two records of a sequence carry the same set of labels. *)
Fixpoint pairwise_distinct (ps : list pattern) : Prop :=
  match ps with
  | [] => True
  | p :: rest =>
      Forall (λ q, same_pattern p q = false) rest ∧ pairwise_distinct rest
  end.

(** Descending order of count. *)
Fixpoint descending (l : list record) : Prop :=
  match l with
  | [] => True
  | r :: rest => Forall (λ r', (r'.2 ≤ r.2)%nat) rest ∧ descending rest
  end.

(** Lexicographic order of two lists of labels, labels compared as
    strings. *)
Fixpoint pattern_lex_leb (p q : pattern) : bool :=
  match p, q with
  | [], _ => true
  | _ :: _, [] => false
  | a :: p', b :: q' =>
      match String.compare a b with
      | Lt => true
      | Gt => false
      | Eq => pattern_lex_leb p' q'
      end
  end.

(** The tie-break of the specification: the smaller pattern first, then
    lexicographic order of the labels. *)
Definition tie_break_before (p q : pattern) : bool :=
  (length p <? length q)%nat ||
  ((length p =? length q)%nat && pattern_lex_leb p q).

(** The order the specification asks of two adjacent records. *)
Definition in_spec_order (r1 r2 : record) : bool :=
  (r2.2 <? r1.2)%nat || ((r1.2 =? r2.2)%nat && tie_break_before r1.1 r2.1).

(** A step that writes at most the frame at [m] and prints nothing. *)
Definition touches_only (m : loc) (st st' : state) : Prop :=
  length (heap st') = length (heap st) ∧
  (∀ l, l ≠ m → heap st' !! l = heap st !! l) ∧
  events st' = events st.

(** The frame that one pass of the loop of [prepare_boolean_matrix] leaves
    at the matrix, and the frame the whole loop leaves (see
    [normalize_columns_exact]). *)
Definition normalize_in (x : DataFrame) (col : string) : DataFrame :=
  match get_column x col with
  | Some vs => set_column x col (VBool ∘ normalize <$> vs)
  | None => x
  end.

Definition normalize_all (x : DataFrame) (cols : list string) : DataFrame :=
  foldl normalize_in x cols.

(** The characters of a string, and a run of [n] dots. *)
Definition chars (s : string) : list ascii := list_ascii_of_string s.

Definition dots (n : nat) : string := string_of_list_ascii (replicate n "."%char).

(** A path prefix: nothing, or a directory followed by the separator. *)
Definition is_dir_prefix (prefix : string) : Prop :=
  prefix = "" ∨ ∃ dir, prefix = dir +:+ "/".

(** * Properties *)

(** ** The normalizer *)

Example normalize_demo_cells :
  map normalize [VInt 1; VInt 0; VInt 2; VStr "y"; VFloat one_float] =
  [true; false; false; false; true].
Proof. reflexivity. Qed.

Lemma normalize_contains (x : value) :
  normalize x = contains true_values x.
Proof. unfold normalize. by destruct (contains true_values x). Qed.

Lemma normalize_int (z : Z) : normalize (VInt z) = bool_decide (z = 1).
Proof.
  rewrite normalize_contains. cbn.
  case_bool_decide as Hz; [by subst |].
  by destruct (Z.eqb_spec z 1).
Qed.

Lemma normalize_float (f : spec_float) :
  normalize (VFloat f) = float_is_int f 1.
Proof.
  rewrite normalize_contains. cbn.
  destruct (float_is_int f 1); reflexivity.
Qed.

Lemma normalize_str (s : string) :
  normalize (VStr s) = bool_decide (s ∈ ["1"; "yes"; "YES"; "Yes"]).
Proof.
  rewrite normalize_contains. cbn. symmetry.
  destruct (decide (s ∈ ["1"; "yes"; "YES"; "Yes"])) as [Hin | Hnin].
  - rewrite bool_decide_eq_true_2 by done.
    repeat (apply elem_of_cons in Hin as [-> | Hin]; [reflexivity |]).
    by apply elem_of_nil in Hin.
  - rewrite bool_decide_eq_false_2 by done.
    repeat case_bool_decide; subst; try reflexivity;
      exfalso; apply Hnin; repeat constructor.
Qed.

Lemma normalize_bool (b : bool) : normalize (VBool b) = b.
Proof. by destruct b. Qed.

(** C2: the normalizer sends integer 1, the strings "1", "yes", "YES" and
    "Yes" and boolean true to true, and integer 0, the strings "0", "no" and
    "maybe" and None to false. *)
Theorem normalize_literals :
  normalize (VInt 1) = true ∧ normalize (VStr "1") = true ∧
  normalize (VStr "yes") = true ∧ normalize (VStr "YES") = true ∧
  normalize (VStr "Yes") = true ∧ normalize (VBool true) = true ∧
  normalize (VInt 0) = false ∧ normalize (VStr "0") = false ∧
  normalize (VStr "no") = false ∧ normalize (VStr "maybe") = false ∧
  normalize VNone = false.
Proof. repeat split; reflexivity. Qed.

(** C5: the normalizer is defined on every cell value and its result is a
    boolean fixed by the kind of the value alone; a value equal to none of
    the true literals, such as the empty string, None, or a number other
    than one, is sent to false. *)
Theorem normalize_total_default_false :
  (∀ v : value,
     normalize v =
       match v with
       | VInt z => bool_decide (z = 1)
       | VFloat f => float_is_int f 1
       | VStr s => bool_decide (s ∈ ["1"; "yes"; "YES"; "Yes"])
       | VBool b => b
       | VNone => false
       end) ∧
  (∀ v : value,
     (∀ lit, lit ∈ true_values → Py.eq v lit = false) → normalize v = false) ∧
  normalize (VStr "") = false ∧
  normalize VNone = false ∧
  (∀ z : Z, z ≠ 1 → normalize (VInt z) = false) ∧
  (∀ f : spec_float, float_is_int f 1 = false → normalize (VFloat f) = false).
Proof.
  split; [| split; [| repeat split]].
  - intros [z | f | s | b |].
    + apply normalize_int.
    + apply normalize_float.
    + apply normalize_str.
    + apply normalize_bool.
    + reflexivity.
  - intros v Hv. rewrite normalize_contains. unfold contains.
    apply not_true_is_false. intros (lit & Hin & Heq)%existsb_exists.
    apply list_elem_of_In, Hv in Hin. congruence.
  - intros z Hz. rewrite normalize_int. by apply bool_decide_eq_false.
  - intros f Hf. by rewrite normalize_float.
Qed.

(** C9: membership in the set of true literals is by value, so a cell equal
    to one of them is sent to true whatever its type; the float 1.0 equals
    the integer 1. *)
Theorem normalize_by_value (v lit : value) :
  lit ∈ true_values → Py.eq v lit = true → normalize v = true.
Proof.
  intros Hin Heq. rewrite normalize_contains. unfold contains.
  apply existsb_exists. exists lit. split; [by apply list_elem_of_In | done].
Qed.

Lemma normalize_by_value_float_one : normalize (VFloat one_float) = true.
Proof.
  apply (normalize_by_value (VFloat one_float) (VInt 1)).
  - apply list_elem_of_here.
  - reflexivity.
Defined.

(** ** Grouping and counting *)

Lemma same_pattern_spec (p q : pattern) :
  same_pattern p q = true ↔ same_set p q.
Proof.
  unfold same_pattern, same_set.
  rewrite andb_true_iff, !forallb_forall. split.
  - intros [Hpq Hqp] x. split; intros Hx%list_elem_of_In.
    + by apply Hpq, bool_decide_eq_true in Hx.
    + by apply Hqp, bool_decide_eq_true in Hx.
  - intros H. split; intros x Hx%list_elem_of_In;
      apply bool_decide_eq_true, H, Hx.
Qed.

Lemma same_pattern_sym (p q : pattern) : same_pattern p q = same_pattern q p.
Proof. unfold same_pattern. apply andb_comm. Qed.

Lemma count_pattern_total (p : pattern) (acc : list record) :
  total_count (count_pattern p acc) = S (total_count acc).
Proof.
  unfold total_count.
  induction acc as [| [q n] acc IH]; cbn; [done |].
  destruct (same_pattern p q); cbn; [done |].
  rewrite IH. lia.
Qed.

Lemma foldl_count_pattern_total (ps : list pattern) (acc : list record) :
  total_count (foldl (λ acc p, count_pattern p acc) acc ps)
  = (total_count acc + length ps)%nat.
Proof.
  revert acc. induction ps as [| p ps IH]; intros acc; cbn [foldl length]; [lia |].
  rewrite IH, count_pattern_total. lia.
Qed.

Lemma from_memberships_total (ps : list pattern) :
  total_count (from_memberships ps) = length ps.
Proof. unfold from_memberships. by rewrite foldl_count_pattern_total. Qed.

Lemma count_pattern_patterns (p : pattern) (acc : list record) :
  (count_pattern p acc).*1 =
    if existsb (same_pattern p) acc.*1 then acc.*1 else acc.*1 ++ [p].
Proof.
  induction acc as [| [q n] acc IH]; cbn; [done |].
  destruct (same_pattern p q); cbn; [done |].
  rewrite IH. by destruct (existsb (same_pattern p) acc.*1).
Qed.

Lemma pairwise_distinct_snoc (ps : list pattern) (p : pattern) :
  pairwise_distinct ps →
  existsb (same_pattern p) ps = false →
  pairwise_distinct (ps ++ [p]).
Proof.
  induction ps as [| q ps IH]; cbn; [by repeat constructor |].
  intros [Hq Hps] [Hpq Hp]%orb_false_elim. split; [| by apply IH].
  apply Forall_app. split; [done |].
  constructor; [| constructor]. by rewrite same_pattern_sym.
Qed.

Lemma foldl_count_pattern_distinct (ps : list pattern) (acc : list record) :
  pairwise_distinct acc.*1 →
  pairwise_distinct (foldl (λ acc p, count_pattern p acc) acc ps).*1.
Proof.
  revert acc. induction ps as [| p ps IH]; intros acc Hacc; cbn; [done |].
  apply IH. rewrite count_pattern_patterns.
  destruct (existsb (same_pattern p) acc.*1) eqn:Hex; [done |].
  by apply pairwise_distinct_snoc.
Qed.

Lemma pairwise_distinct_perm (ps qs : list pattern) :
  ps ≡ₚ qs → pairwise_distinct ps → pairwise_distinct qs.
Proof.
  induction 1 as [| p ps qs Hperm IH | p q ps | ps qs rs _ IH1 _ IH2]; cbn.
  - done.
  - intros [Hp Hps]. split; [by rewrite <- Hperm | by apply IH].
  - intros [[Hqp Hq]%Forall_cons [Hp Hps]]. repeat split; try done.
    constructor; [by rewrite same_pattern_sym | done].
  - auto.
Qed.

Lemma pairwise_distinct_lookup (ps : list pattern) (i j : nat) (p q : pattern) :
  pairwise_distinct ps → i ≠ j →
  ps !! i = Some p → ps !! j = Some q → same_pattern p q = false.
Proof.
  revert i j. induction ps as [| a ps IH]; intros i j Hps Hij Hi Hj; [done |].
  destruct Hps as [Ha Hps].
  destruct i as [| i], j as [| j]; cbn in *; simplify_eq.
  - eapply Forall_forall in Ha; [done |]. by eapply list_elem_of_lookup_2.
  - rewrite same_pattern_sym.
    eapply Forall_forall in Ha; [done |]. by eapply list_elem_of_lookup_2.
  - apply (IH i j); auto.
Qed.

(** ** Ordering *)

Lemma insert_by_count_perm (r : record) (l : list record) :
  insert_by_count r l ≡ₚ r :: l.
Proof.
  induction l as [| r' l IH]; cbn; [done |].
  destruct (r'.2 <=? r.2)%nat; [done |].
  rewrite IH. apply Permutation_swap.
Qed.

Lemma sort_by_cardinality_perm (l : list record) :
  sort_by_cardinality l ≡ₚ l.
Proof.
  induction l as [| r l IH]; cbn; [done |].
  by rewrite insert_by_count_perm, IH.
Qed.

Lemma insert_by_count_descending (r : record) (l : list record) :
  descending l → descending (insert_by_count r l).
Proof.
  induction l as [| r' l IH]; cbn; [done |].
  intros [Hr' Hl].
  destruct (Nat.leb_spec r'.2 r.2) as [Hle | Hlt]; cbn.
  - repeat split; try done. constructor; [done |].
    eapply Forall_impl; [exact Hr' |]. cbn. intros; lia.
  - split; [| by apply IH].
    rewrite insert_by_count_perm. constructor; [lia | done].
Qed.

Lemma sort_by_cardinality_descending (l : list record) :
  descending (sort_by_cardinality l).
Proof.
  induction l as [| r l IH]; cbn; [done |].
  by apply insert_by_count_descending.
Qed.

Lemma descending_adjacent (l : list record) (i : nat) (r1 r2 : record) :
  descending l → l !! i = Some r1 → l !! S i = Some r2 → (r2.2 ≤ r1.2)%nat.
Proof.
  revert i. induction l as [| a l IH]; intros i Hl Hi Hj; [done |].
  destruct Hl as [Ha Hl]. destruct i as [| i]; cbn in *; simplify_eq.
  - eapply Forall_forall in Ha; [done |]. by eapply list_elem_of_lookup_2.
  - eapply IH; eauto.
Qed.

(** C1: the counts of the records built from a matrix add up to the number
    of its rows. *)
Theorem count_conservation (bdf : DataFrame) :
  total_count (intersection_records bdf) = nrows bdf.
Proof.
  unfold intersection_records, total_count.
  rewrite sort_by_cardinality_perm.
  fold (total_count (from_memberships (membership_lists bdf))).
  rewrite from_memberships_total. unfold membership_lists.
  by rewrite length_fmap, length_seq.
Qed.

Lemma intersection_records_distinct (bdf : DataFrame) :
  pairwise_distinct (intersection_records bdf).*1.
Proof.
  unfold intersection_records.
  eapply pairwise_distinct_perm.
  - symmetry. apply fmap_Permutation, sort_by_cardinality_perm.
  - by apply foldl_count_pattern_distinct.
Qed.

(** C4: two records at different positions of the output never carry the
    same set of labels. *)
Theorem pattern_uniqueness (bdf : DataFrame) (i j : nat) (r1 r2 : record) :
  i ≠ j →
  intersection_records bdf !! i = Some r1 →
  intersection_records bdf !! j = Some r2 →
  ¬ same_set r1.1 r2.1.
Proof.
  intros Hij Hi Hj Hsame%same_pattern_spec.
  pose proof (intersection_records_distinct bdf) as Hd.
  rewrite (pairwise_distinct_lookup _ i j r1.1 r2.1 Hd Hij) in Hsame; [done | |].
  - rewrite list_lookup_fmap. unfold record in Hi. by rewrite Hi.
  - rewrite list_lookup_fmap. unfold record in Hj. by rewrite Hj.
Qed.

Lemma pattern_uniqueness_demo :
  ¬ same_set ["Condition_A"; "Condition_C"] ["Condition_A"; "Condition_B"].
Proof.
  apply (pattern_uniqueness demo_boolean_matrix 0 1
           (["Condition_A"; "Condition_C"], 1%nat)
           (["Condition_A"; "Condition_B"], 1%nat)).
  - lia.
  - reflexivity.
  - reflexivity.
Defined.

(** C3, as the code has it: adjacent records are in descending order of
    count; nothing orders two records of equal count. *)
Theorem sorted_by_descending_count
    (bdf : DataFrame) (i : nat) (r1 r2 : record) :
  intersection_records bdf !! i = Some r1 →
  intersection_records bdf !! S i = Some r2 →
  (r2.2 < r1.2)%nat ∨ r1.2 = r2.2.
Proof.
  intros Hi Hj.
  assert (r2.2 ≤ r1.2)%nat; [| lia].
  eapply descending_adjacent; [| exact Hi | exact Hj].
  apply sort_by_cardinality_descending.
Qed.

Lemma sorted_by_descending_count_skewed :
  (1 < 2)%nat ∨ 2%nat = 1%nat.
Proof.
  apply (sorted_by_descending_count skewed_matrix 0
           (["A"], 2%nat) ([], 1%nat)).
  - reflexivity.
  - reflexivity.
Defined.

(** C3 fails as stated: the first two records of the demo have the same
    count and the same size, and the second one is the smaller in
    lexicographic order. *)
Lemma demo_records_not_in_spec_order :
  ∃ r1 r2 : record,
    intersection_records demo_boolean_matrix !! 0%nat = Some r1 ∧
    intersection_records demo_boolean_matrix !! 1%nat = Some r2 ∧
    in_spec_order r1 r2 = false.
Proof.
  exists (["Condition_A"; "Condition_C"], 1%nat),
         (["Condition_A"; "Condition_B"], 1%nat).
  repeat split; reflexivity.
Qed.

(** ** The store: what [prepare_boolean_matrix] writes *)

Lemma touches_only_refl (m : loc) (st : state) : touches_only m st st.
Proof. by repeat split. Qed.

Lemma touches_only_trans (m : loc) (st1 st2 st3 : state) :
  touches_only m st1 st2 → touches_only m st2 st3 → touches_only m st1 st3.
Proof.
  intros (Hlen1 & Hget1 & Hev1) (Hlen2 & Hget2 & Hev2). repeat split.
  - congruence.
  - intros l Hl. by rewrite Hget2, Hget1.
  - congruence.
Qed.

Lemma normalize_column_touches (m : loc) (col : string) (st : state) :
  touches_only m st (normalize_column m col st).2.
Proof.
  unfold normalize_column, mbind, M_bind, read_frame.
  destruct (heap st !! m) as [d |]; cbn; [| apply touches_only_refl].
  destruct (columns_labelled d col) as [| [c1 vs1] [| kv2 rest]]; cbn;
    try apply touches_only_refl.
  repeat split; cbn.
  - apply length_insert.
  - intros l Hl. by apply list_lookup_insert_ne.
Qed.

Lemma for_each_touches {A} (m : loc) (body : A → M unit) (xs : list A) :
  (∀ x st, touches_only m st (body x st).2) →
  ∀ st, touches_only m st (for_each xs body st).2.
Proof.
  intros Hbody. induction xs as [| x xs IH]; intros st; cbn.
  - apply touches_only_refl.
  - unfold mbind, M_bind. specialize (Hbody x st).
    destruct (body x st) as [[[] | msg | e] st1]; cbn in *; try done.
    eapply touches_only_trans; [exact Hbody | apply IH].
Qed.

Lemma get_column_is_Some (d : DataFrame) (col : string) :
  col ∈ df_columns d → is_Some (get_column d col).
Proof.
  unfold df_columns, get_column.
  induction (series d) as [| [c vs] cols IH]; cbn.
  - by intros ?%elem_of_nil.
  - intros [-> | Hin]%elem_of_cons.
    + rewrite bool_decide_eq_true_2 by done. by eexists.
    + case_bool_decide; [by eexists | by apply IH].
Qed.

Lemma set_column_columns (d : DataFrame) (col : string) (vs : list value) :
  col ∈ df_columns d → df_columns (set_column d col vs) = df_columns d.
Proof.
  intros Hin. unfold set_column. rewrite bool_decide_eq_true_2 by done.
  unfold df_columns. cbn.
  induction (series d) as [| [c ws] cols IH]; cbn; [done |].
  rewrite IH. by case_bool_decide; subst.
Qed.

Lemma filter_label_absent (l : list (string * list value)) (c : string) :
  c ∉ l.*1 → List.filter (λ kv, bool_decide (kv.1 = c)) l = [].
Proof.
  induction l as [| [c' vs'] l IH]; cbn; [done |].
  intros [Hne Hnin]%not_elem_of_cons.
  rewrite bool_decide_eq_false_2 by done. by apply IH.
Qed.

Lemma filter_label_present (l : list (string * list value)) (c : string) :
  c ∈ l.*1 → List.filter (λ kv, bool_decide (kv.1 = c)) l ≠ [].
Proof.
  induction l as [| [c' vs'] l IH]; cbn; [by intros ?%elem_of_nil |].
  intros Hin. case_bool_decide as Hc; [done |]. apply IH.
  apply elem_of_cons in Hin as [-> | Hin]; done.
Qed.

Lemma filter_label_unique (l : list (string * list value)) (c : string) :
  NoDup l.*1 → c ∈ l.*1 →
  ∃ vs, List.filter (λ kv, bool_decide (kv.1 = c)) l = [(c, vs)] ∧
        lookup_series l c = Some vs.
Proof.
  induction l as [| [c' vs'] l IH]; cbn; [by intros _ ?%elem_of_nil |].
  intros [Hnin Hnd]%NoDup_cons Hin. case_bool_decide as Hc.
  - cbn in Hc. subst c'. exists vs'. by rewrite filter_label_absent.
  - apply IH; [done |]. apply elem_of_cons in Hin as [-> | Hin]; done.
Qed.

Lemma filter_label_labels (l : list (string * list value)) (c : string) :
  Forall (λ kv, kv.1 = c) (List.filter (λ kv, bool_decide (kv.1 = c)) l).
Proof.
  apply Forall_forall. intros kv [_ Hkv]%list_elem_of_In%filter_In.
  by apply bool_decide_eq_true in Hkv.
Qed.

Lemma select_columns_found (d : DataFrame) (cols : list string)
    (sel : DataFrame) :
  select_columns d cols = Some sel →
  ∃ found,
    Forall2 (λ c l, columns_labelled d c = l ∧ l ≠ []) cols found ∧
    sel = mkDataFrame (nrows d) (concat found).
Proof.
  unfold select_columns. intros (found & Hfound & ->)%fmap_Some.
  exists found. split; [| done].
  apply mapM_Some_1 in Hfound. eapply Forall2_impl; [exact Hfound |].
  intros c l. cbn. destruct (columns_labelled d c); [done |].
  by intros [= <-].
Qed.

Lemma select_columns_is_Some (d : DataFrame) (cols : list string) :
  (∀ c, c ∈ cols → c ∈ df_columns d) → is_Some (select_columns d cols).
Proof.
  intros Hcols. unfold select_columns. apply fmap_is_Some, mapM_is_Some_2.
  apply Forall_forall. intros c Hc%Hcols. cbn.
  pose proof (filter_label_present (series d) c Hc) as Hne.
  unfold columns_labelled. by destruct (List.filter _ (series d)).
Qed.

Lemma select_columns_labels (d : DataFrame) (cols : list string)
    (sel : DataFrame) :
  select_columns d cols = Some sel → ∀ c, c ∈ cols → c ∈ df_columns sel.
Proof.
  intros (found & Hfound & ->)%select_columns_found.
  unfold df_columns. cbn [series].
  induction Hfound as [| c l cols found [Hl Hne] _ IH]; cbn.
  - by intros c ?%elem_of_nil.
  - intros c0 Hc0. rewrite fmap_app, elem_of_app.
    apply elem_of_cons in Hc0 as [-> | Hc0]; [left | right; by apply IH].
    destruct l as [| kv l]; [done |].
    pose proof (filter_label_labels (series d) c) as Hall.
    unfold columns_labelled in Hl. rewrite Hl in Hall.
    apply Forall_cons in Hall as [<- _]. by left.
Qed.

Lemma select_columns_inv (d : DataFrame) (cols : list string) (sel : DataFrame) :
  NoDup (df_columns d) → select_columns d cols = Some sel →
  nrows sel = nrows d ∧ df_columns sel = cols ∧
  ∀ c, c ∈ cols → get_column sel c = get_column d c.
Proof.
  intros Hnd (found & Hfound & ->)%select_columns_found. split; [done |].
  unfold df_columns at 1, get_column at 1. cbn [series].
  induction Hfound as [| c l cols found [Hl Hne] _ [IH1 IH2]]; cbn.
  - split; [done |]. by intros c ?%elem_of_nil.
  - assert (c ∈ df_columns d) as Hc.
    { destruct (decide (c ∈ df_columns d)) as [| Hnin]; [done |].
      unfold columns_labelled in Hl.
      by rewrite filter_label_absent in Hl by done. }
    destruct (filter_label_unique (series d) c Hnd Hc) as (vs & Hone & Hget).
    unfold columns_labelled in Hl. rewrite Hone in Hl. subst l. cbn.
    split; [by rewrite IH1 |].
    intros c0 Hc0. case_bool_decide as Heq; [by subst |].
    apply IH2. apply elem_of_cons in Hc0 as [-> | ?]; done.
Qed.

Lemma select_columns_Some (d : DataFrame) (cols : list string) :
  NoDup (df_columns d) →
  (∀ c, c ∈ cols → c ∈ df_columns d) →
  ∃ sel, select_columns d cols = Some sel ∧ df_columns sel = cols.
Proof.
  intros Hnd Hcols.
  destruct (select_columns_is_Some d cols Hcols) as [sel Hsel].
  exists sel. split; [done |].
  by destruct (select_columns_inv d cols sel Hnd Hsel) as (_ & ? & _).
Qed.

Lemma bind_run {A B} (m : M A) (k : A → M B) (st st1 : state) (a : A) :
  m st = (Ok a, st1) → (m ≫= k) st = k a st1.
Proof. unfold mbind, M_bind. by intros ->. Qed.

Lemma bind_raise {A B} (m : M A) (k : A → M B) (st st1 : state) (e : string) :
  m st = (Raise e, st1) → (m ≫= k) st = (Raise e, st1).
Proof. unfold mbind, M_bind. by intros ->. Qed.

Lemma normalize_column_run (m : loc) (col : string) (st : state)
    (x : DataFrame) (c : string) (vs : list value) :
  heap st !! m = Some x → columns_labelled x col = [(c, vs)] →
  normalize_column m col st =
    (Ok tt, mkState (<[m := set_column x col (VBool ∘ normalize <$> vs)]> (heap st))
                    (events st)).
Proof.
  intros Hm Hvs. unfold normalize_column.
  rewrite (bind_run _ _ st st x); [by rewrite Hvs |].
  unfold read_frame. by rewrite Hm.
Qed.

Lemma normalize_columns_ok (m : loc) (cs : list string) (st : state)
    (x : DataFrame) :
  heap st !! m = Some x → NoDup (df_columns x) →
  (∀ c, c ∈ cs → c ∈ df_columns x) →
  ∃ st' x',
    for_each cs (normalize_column m) st = (Ok tt, st') ∧
    heap st' !! m = Some x' ∧ df_columns x' = df_columns x.
Proof.
  revert st x. induction cs as [| c cs IH]; intros st x Hm Hnd Hcs;
    cbn [for_each].
  - by exists st, x.
  - assert (c ∈ df_columns x) as Hc by (apply Hcs; by left).
    destruct (filter_label_unique (series x) c Hnd Hc) as (vs & Hvs & _).
    rewrite (bind_run _ _ _ _ _ (normalize_column_run m c st x c vs Hm Hvs)).
    edestruct IH as (st' & x' & Hrun & Hm' & Hx'); last first.
    + exists st', x'. split; [exact Hrun |]. split; [exact Hm' |].
      by rewrite Hx', set_column_columns.
    + intros c' Hc'. rewrite set_column_columns by done. apply Hcs. by right.
    + by rewrite set_column_columns.
    + cbn. apply list_lookup_insert_eq. by eapply lookup_lt_Some.
Qed.

Lemma prepare_boolean_matrix_ok (df : loc) (cols : list string) (st : state)
    (d : DataFrame) :
  heap st !! df = Some d →
  NoDup (df_columns d) → NoDup cols →
  (∀ c, c ∈ cols → c ∈ df_columns d) →
  ∃ st' x,
    prepare_boolean_matrix df cols st = (Ok (length (heap st)), st') ∧
    heap st' !! length (heap st) = Some x ∧ df_columns x = cols.
Proof.
  intros Hdf Hndd Hnd Hcols.
  destruct (select_columns_Some d cols Hndd Hcols) as (sel & Hsel & Hselc).
  set (st1 := mkState (heap st ++ [sel]) (events st)).
  destruct (normalize_columns_ok (length (heap st)) cols st1 sel)
    as (st2 & x & Hrun & Hx & Hxc).
  { cbn. by apply list_lookup_middle. }
  { by rewrite Hselc. }
  { by rewrite Hselc. }
  exists st2, x. split; [| split; [done | congruence]].
  unfold prepare_boolean_matrix.
  rewrite (bind_run _ _ st st d); [| unfold read_frame; by rewrite Hdf].
  rewrite Hsel.
  rewrite (bind_run _ _ st st1 (length (heap st))); [| done].
  by rewrite (bind_run _ _ st1 st2 tt).
Qed.

Lemma prepare_boolean_matrix_touches (df : loc) (cols : list string)
    (st st' : state) (r : result loc) :
  prepare_boolean_matrix df cols st = (r, st') →
  (∀ l, (l < length (heap st))%nat → heap st' !! l = heap st !! l) ∧
  events st' = events st ∧
  (length (heap st') ≤ S (length (heap st)))%nat ∧
  (∀ m, r = Ok m → m = length (heap st) ∧ is_Some (heap st' !! m)).
Proof.
  unfold prepare_boolean_matrix, mbind, M_bind, read_frame, alloc.
  destruct (heap st !! df) as [d |];
    [| intros [= <- <-]; repeat split; try done; lia].
  destruct (select_columns d cols) as [sel |];
    [| intros [= <- <-]; repeat split; try done; lia].
  cbn [heap events].
  set (m := length (heap st)).
  set (st1 := mkState (heap st ++ [sel]) (events st)).
  pose proof (for_each_touches m (normalize_column m) cols
                (normalize_column_touches m) st1) as (Hlen & Hget & Hev).
  destruct (for_each cols (normalize_column m) st1) as [[[] | msg | e] st2];
    cbn [fst snd] in *; intros [= <- <-].
  all: assert (∀ l, (l < m)%nat → heap st2 !! l = heap st !! l) as Hold
    by (intros l Hl; rewrite Hget by lia; unfold st1; cbn [heap];
        by apply lookup_app_l).
  all: assert (length (heap st2) = S m) as Hlen2
    by (rewrite Hlen; unfold st1; cbn [heap]; rewrite length_app; cbn; lia).
  all: split; [exact Hold |]; split; [done |]; split; [lia |].
  all: intros m' Hm'; try discriminate Hm'.
  injection Hm' as <-. split; [done |].
  apply lookup_lt_is_Some. lia.
Qed.

Lemma prepare_boolean_matrix_nil (df : loc) (st : state) (d : DataFrame) :
  heap st !! df = Some d →
  prepare_boolean_matrix df [] st =
    (Ok (length (heap st)),
     mkState (heap st ++ [mkDataFrame (nrows d) []]) (events st)).
Proof.
  intros Hdf. unfold prepare_boolean_matrix.
  by rewrite (bind_run _ _ st st d); [| unfold read_frame; by rewrite Hdf].
Qed.

Lemma normalize_column_no_exit (m : loc) (col : string) (st : state)
    (msg : string) :
  (normalize_column m col st).1 ≠ SysExit msg.
Proof.
  unfold normalize_column, mbind, M_bind, read_frame.
  destruct (heap st !! m) as [d |]; cbn; [| done].
  by destruct (columns_labelled d col) as [| [c1 vs1] [| kv2 rest]].
Qed.

Lemma for_each_no_exit {A} (body : A → M unit) (xs : list A) :
  (∀ x st msg, (body x st).1 ≠ SysExit msg) →
  ∀ st msg, (for_each xs body st).1 ≠ SysExit msg.
Proof.
  intros Hbody. induction xs as [| x xs IH]; intros st msg; cbn; [done |].
  unfold mbind, M_bind. specialize (Hbody x st).
  destruct (body x st) as [[[] | msg' | e] st1]; cbn in *; [apply IH | | done].
  by destruct (Hbody msg').
Qed.

Lemma prepare_boolean_matrix_no_exit (df : loc) (cols : list string)
    (st : state) (msg : string) :
  (prepare_boolean_matrix df cols st).1 ≠ SysExit msg.
Proof.
  unfold prepare_boolean_matrix, mbind, M_bind, read_frame, alloc.
  destruct (heap st !! df) as [d |]; [| done].
  destruct (select_columns d cols) as [sel |]; [| done].
  pose proof (for_each_no_exit (normalize_column (length (heap st))) cols
                (normalize_column_no_exit (length (heap st)))
                (mkState (heap st ++ [sel]) (events st))) as Hloop.
  cbn [heap events].
  destruct (for_each cols _ _) as [[[] | msg' | e] st2]; cbn in *; try done.
  by destruct (Hloop msg').
Qed.

Lemma plot_upset_no_exit (m : loc) (out : string) (st : state) (msg : string) :
  (plot_upset m out st).1 ≠ SysExit msg.
Proof.
  unfold plot_upset, mbind, M_bind, read_frame.
  by destruct (heap st !! m).
Qed.

Lemma normalize_columns_result (m : loc) (cs : list string) (st : state)
    (x : DataFrame) :
  heap st !! m = Some x →
  (∀ c, c ∈ cs → c ∈ df_columns x) →
  (for_each cs (normalize_column m) st).1 = Ok tt ∨
  (for_each cs (normalize_column m) st).1 = Raise "TypeError".
Proof.
  revert st x. induction cs as [| c cs IH]; intros st x Hm Hcs;
    cbn [for_each]; [by left |].
  assert (c ∈ df_columns x) as Hc by (apply Hcs; by left).
  pose proof (filter_label_present (series x) c Hc) as Hne.
  destruct (columns_labelled x c) as [| [c1 vs1] [| kv2 rest]] eqn:Hlab;
    [done | |].
  - rewrite (bind_run _ _ _ _ _ (normalize_column_run m c st x c1 vs1 Hm Hlab)).
    eapply IH.
    + cbn. apply list_lookup_insert_eq. by eapply lookup_lt_Some.
    + intros c' Hc'. rewrite set_column_columns by done. apply Hcs. by right.
  - right. rewrite (bind_raise _ _ st st "TypeError"); [done |].
    unfold normalize_column.
    rewrite (bind_run _ _ st st x); [by rewrite Hlab |].
    unfold read_frame. by rewrite Hm.
Qed.

Lemma prepare_boolean_matrix_result (df : loc) (cols : list string)
    (st : state) (d : DataFrame) :
  heap st !! df = Some d →
  (∀ c, c ∈ cols → c ∈ df_columns d) →
  (prepare_boolean_matrix df cols st).1 = Ok (length (heap st)) ∨
  (prepare_boolean_matrix df cols st).1 = Raise "TypeError".
Proof.
  intros Hdf Hcols.
  destruct (select_columns_is_Some d cols Hcols) as [sel Hsel].
  set (st1 := mkState (heap st ++ [sel]) (events st)).
  unfold prepare_boolean_matrix.
  rewrite (bind_run _ _ st st d); [| unfold read_frame; by rewrite Hdf].
  rewrite Hsel.
  rewrite (bind_run _ _ st st1 (length (heap st))); [| done].
  destruct (normalize_columns_result (length (heap st)) cols st1 sel)
    as [Hok | Herr].
  { cbn. by apply list_lookup_middle. }
  { by apply select_columns_labels with d. }
  - left. unfold mbind, M_bind.
    by destruct (for_each cols _ st1) as [[[] | msg | e] st2]; cbn in *.
  - right. unfold mbind, M_bind.
    destruct (for_each cols _ st1) as [[[] | msg | e] st2]; cbn in *;
      congruence.
Qed.

Lemma plot_upset_heap (m : loc) (out : string) (st : state) :
  heap (plot_upset m out st).2 = heap st.
Proof.
  unfold plot_upset, mbind, M_bind, read_frame.
  by destruct (heap st !! m).
Qed.

(** C7: whatever the frame and the column list, and whether it returns or
    raises, [prepare_boolean_matrix] leaves every frame of the store as it
    was, the input included, and prints nothing; the matrix it returns is a
    frame that was not there before; it does return one when the labels of
    the table are distinct and the requested labels are distinct columns of
    it.  [plot_upset] writes no frame at all. *)
Theorem no_mutation_of_input (df : loc) (cols : list string) (st : state) :
  let r := (prepare_boolean_matrix df cols st).1 in
  let st' := (prepare_boolean_matrix df cols st).2 in
  (∀ l d, heap st !! l = Some d → heap st' !! l = Some d) ∧
  events st' = events st ∧
  (∀ m, r = Ok m → heap st !! m = None ∧ is_Some (heap st' !! m)) ∧
  (∀ d, heap st !! df = Some d →
        NoDup (df_columns d) → NoDup cols →
        (∀ c, c ∈ cols → c ∈ df_columns d) →
        ∃ m, r = Ok m ∧ m ≠ df) ∧
  (∀ m out st0, heap (plot_upset m out st0).2 = heap st0).
Proof.
  cbn zeta.
  destruct (prepare_boolean_matrix df cols st) as [r st'] eqn:Hrun.
  destruct (prepare_boolean_matrix_touches _ _ _ _ _ Hrun)
    as (Hold & Hev & _ & Hnew).
  cbn [fst snd]. split; [| split; [done |]; split; [| split]].
  - intros l d Hl. rewrite Hold; [done |]. by eapply lookup_lt_Some.
  - intros m [-> Hm]%Hnew. split; [by apply lookup_ge_None_2 | done].
  - intros d Hd Hndd Hnd Hcols.
    destruct (prepare_boolean_matrix_ok df cols st d Hd Hndd Hnd Hcols)
      as (st2 & x & Hok & _).
    rewrite Hok in Hrun. injection Hrun as <- <-.
    eexists. split; [done |]. apply lookup_lt_Some in Hd. lia.
  - intros m out st0. apply plot_upset_heap.
Qed.

(** ** The loader and the driver *)

Lemma bind_exit {A B} (m : M A) (k : A → M B) (st st1 : state) (msg : string) :
  m st = (SysExit msg, st1) → (m ≫= k) st = (SysExit msg, st1).
Proof. unfold mbind, M_bind. by intros ->. Qed.

Lemma plot_upset_run (m : loc) (out : string) (st : state) (x : DataFrame) :
  heap st !! m = Some x →
  plot_upset m out st =
    (Ok tt, mkState (heap st)
              (events st ++ [ESaveFig out (intersection_records x);
                             EPrint ("UpSet plot saved as: " +:+ out)])).
Proof.
  intros Hm. unfold plot_upset.
  rewrite (bind_run _ _ st st x); [| unfold read_frame; by rewrite Hm].
  unfold mbind, M_bind, emit. cbn. by rewrite <- app_assoc.
Qed.

Section ScriptProperties.

Variable os_path_exists : string → bool.
Variable read_csv : string → string → DataFrame.
Variable read_excel : string → DataFrame.

Local Abbreviation load := (load_dataset os_path_exists read_csv read_excel).
Local Abbreviation table := (loaded_table read_csv read_excel).
Local Abbreviation input := (main_input os_path_exists read_csv read_excel).
Local Abbreviation run := (main os_path_exists read_csv read_excel).
Local Abbreviation outcome := (main_outcome os_path_exists read_csv read_excel).

Lemma load_dataset_missing (path : string) (st : state) :
  os_path_exists path = false →
  load path st = (SysExit ("Error: File not found → " +:+ path), st).
Proof. intros H. unfold load_dataset. by rewrite H. Qed.

Lemma load_dataset_unsupported (path : string) (st : state) :
  os_path_exists path = true → table path = None →
  load path st = (SysExit "Unsupported file format. Use CSV/TSV/Excel.", st).
Proof.
  intros H. unfold load_dataset, loaded_table. rewrite H. cbn [negb].
  by repeat case_bool_decide.
Qed.

Lemma load_dataset_loaded (path : string) (d : DataFrame) :
  os_path_exists path = true → table path = Some d →
  load path = alloc d.
Proof.
  intros H. unfold load_dataset, loaded_table. rewrite H. cbn [negb].
  repeat case_bool_decide; by intros [= <-].
Qed.

Lemma first_missing_None (d : DataFrame) (cols : list string) :
  first_missing d cols = None → ∀ c, c ∈ cols → c ∈ df_columns d.
Proof.
  intros Hnone c Hc%list_elem_of_In.
  apply (find_none _ _ Hnone) in Hc.
  by apply negb_false_iff, bool_decide_eq_true in Hc.
Qed.

Lemma first_missing_Some (d : DataFrame) (cols : list string) (c : string) :
  first_missing d cols = Some c → c ∈ cols ∧ c ∉ df_columns d.
Proof.
  intros [Hin Hc]%find_some. split; [by apply list_elem_of_In |].
  by apply negb_true_iff, bool_decide_eq_false in Hc.
Qed.

Lemma check_columns_run (df : loc) (cols : list string) (st : state)
    (d : DataFrame) :
  heap st !! df = Some d →
  check_columns df cols st =
    (match first_missing d cols with
     | Some c => SysExit ("Error: Column not found → " +:+ c)
     | None => Ok tt
     end, st).
Proof.
  intros Hdf. unfold check_columns, first_missing.
  induction cols as [| c cols IH]; cbn [for_each find]; [done |].
  unfold mbind at 1, M_bind at 1, mbind at 1, M_bind at 1, read_frame.
  rewrite Hdf. case_bool_decide; cbn [negb]; [| done].
  exact IH.
Qed.

Lemma demo_columns_present :
  ∀ c, c ∈ demo_columns → c ∈ df_columns create_example_demo.
Proof.
  intros c Hc. unfold demo_columns in Hc.
  repeat (apply elem_of_cons in Hc as [-> | Hc]; [by repeat constructor |]).
  by apply elem_of_nil in Hc.
Qed.

Lemma main_input_run (args : Args) (st : state) :
  (∃ df cols d st',
     input args st = (Ok (df, cols), st') ∧ heap st' !! df = Some d ∧
     (∀ c, c ∈ cols → c ∈ df_columns d) ∧ outcome args = Ok tt) ∨
  (∃ msg st',
     input args st = (SysExit msg, st') ∧ outcome args = SysExit msg ∧
     events st' = events st ∧
     (heap st' = heap st ∨ ∃ d, heap st' = heap st ++ [d])).
Proof.
  unfold main_input, main_outcome, file_given, columns_given.
  destruct (demo args).
  { left. exists (length (heap st)), demo_columns, create_example_demo.
    eexists. split; [reflexivity |]. cbn [heap]. split; [| split; [| done]].
    - by apply list_lookup_middle.
    - apply demo_columns_present. }
  destruct (file args) as [[| a path] |].
  1, 3: right; eexists _, st; repeat split; by left.
  set (p := String a path).
  destruct (os_path_exists p) eqn:Hex; cbn [negb]; last first.
  { right. eexists _, st. split; [| repeat split; by left].
    apply bind_exit. by apply load_dataset_missing. }
  destruct (table p) as [d |] eqn:Ht; last first.
  { right. eexists _, st. split; [| repeat split; by left].
    apply bind_exit. by apply load_dataset_unsupported. }
  rewrite (load_dataset_loaded p d Hex Ht).
  set (st1 := mkState (heap st ++ [d]) (events st)).
  rewrite (bind_run _ _ st st1 (length (heap st))); [| done].
  assert (heap st1 !! length (heap st) = Some d) as Hd
    by (by apply list_lookup_middle).
  destruct (columns args) as [[| c cols] |].
  1, 3: right; eexists _, st1; repeat split; right; by exists d.
  pose proof (check_columns_run (length (heap st)) (c :: cols) st1 d Hd)
    as Hcheck.
  destruct (first_missing d (c :: cols)) as [c' |] eqn:Hfm.
  - right. eexists _, st1. split; [by apply bind_exit |].
    repeat split. right. by exists d.
  - left. exists (length (heap st)), (c :: cols), d, st1.
    split; [by rewrite (bind_run _ _ _ _ _ Hcheck) |].
    split; [done |]. split; [| done]. by apply first_missing_None.
Qed.

Lemma main_exit (args : Args) (st : state) (msg : string) :
  (run args st).1 = SysExit msg ↔ outcome args = SysExit msg.
Proof.
  unfold main.
  destruct (main_input_run args st)
    as [(df & cols & d & st1 & Hin & Hdf & Hcols & ->)
       | (msg' & st1 & Hin & -> & Hev & Hheap)].
  - rewrite (bind_run _ _ _ _ _ Hin). cbn beta iota. split; [| done].
    unfold mbind, M_bind.
    pose proof (prepare_boolean_matrix_no_exit df cols st1) as Hprep.
    destruct (prepare_boolean_matrix df cols st1) as [[m | msg' | e] st2];
      cbn in *.
    + intros Hplot. by apply plot_upset_no_exit in Hplot.
    + by destruct (Hprep msg').
    + done.
  - rewrite (bind_exit _ _ _ _ _ Hin). cbn. split; congruence.
Qed.

Local Abbreviation not_found := (file_not_found os_path_exists).
Local Abbreviation unsupported := (unsupported_extension read_csv read_excel).
Local Abbreviation absent := (column_absent read_csv read_excel).

Lemma outcome_exit_iff (args : Args) :
  exit_status (outcome args) ≠ 0 ↔
  demo args = false ∧
  (file_not_given args ∨ not_found args ∨ unsupported args ∨
   columns_not_given args ∨ absent args).
Proof.
  unfold main_outcome, file_not_given, file_not_found, unsupported_extension,
    columns_not_given, column_absent.
  destruct (demo args) eqn:Hdemo.
  { cbn. split; [done | by intros [? _]]. }
  destruct (file_given args) as [path |] eqn:Hfile;
    [| split; [intros _; split; [done | by left] | done]].
  destruct (os_path_exists path) eqn:Hex; cbn [negb];
    [| split; [intros _; split; [done |]; right; left; by exists path | done]].
  destruct (table path) as [d |] eqn:Ht;
    [| split; [intros _; split; [done |]; do 2 right; left; by exists path
              | done]].
  destruct (columns_given args) as [cols |] eqn:Hcols;
    [| split; [intros _; split; [done |]; do 3 right; by left | done]].
  destruct (first_missing d cols) as [c |] eqn:Hfm.
  - split; [intros _ | done]. split; [done |]. do 4 right.
    apply first_missing_Some in Hfm as [Hin Hnin].
    by exists path, d, cols, c.
  - cbn. split; [done |]. intros [_ Hcase]. exfalso.
    destruct Hcase as [? | [(p & [= <-] & ?) | [(p & [= <-] & ?)
      | [? | (p & d' & cols' & c & [= <-] & Ht' & [= <-] & Hin & Hnin)]]]];
      try congruence.
    apply Hnin. rewrite Ht in Ht'. injection Ht' as <-.
    by apply (first_missing_None d cols).
Qed.

Lemma outcome_message (args : Args) :
  exit_status (outcome args) ≠ 0 →
  ∃ msg, outcome args = SysExit msg ∧ msg ≠ "".
Proof.
  unfold main_outcome.
  repeat match goal with
         | |- context [match ?x with _ => _ end] => destruct x
         end; cbn; try done; intros _; by eexists.
Qed.

Lemma outcome_missing_column (args : Args) (path : string) (d : DataFrame)
    (cols : list string) (c : string) :
  demo args = false → file_given args = Some path →
  os_path_exists path = true → table path = Some d →
  columns_given args = Some cols → first_missing d cols = Some c →
  outcome args = SysExit ("Error: Column not found → " +:+ c).
Proof.
  unfold main_outcome. by intros -> -> -> -> -> ->.
Qed.

Lemma outcome_exit_status (args : Args) :
  exit_status (outcome args) ≠ 0 ↔ ∃ msg, outcome args = SysExit msg.
Proof.
  split.
  - intros (msg & Hmsg & _)%outcome_message. by exists msg.
  - by intros [msg ->].
Qed.



(** C10: a path ending in ".txt", in any case, is not rejected: the loader
    reads it with the delimited reader and the tab separator, the call it
    makes for ".tsv". *)
Theorem load_dataset_txt_as_tsv (path : string) :
  os_path_exists path = true →
  lower (splitext_ext path) = ".txt" →
  load path = alloc (read_csv path TAB) ∧
  (∀ st, (load path st).1 = Ok (length (heap st))) ∧
  (∀ tsv, os_path_exists tsv = true → lower (splitext_ext tsv) = ".tsv" →
          load tsv = alloc (read_csv tsv TAB)).
Proof.
  intros Hex Hext.
  assert (∀ q, os_path_exists q = true →
               lower (splitext_ext q) ∈ [".tsv"; ".txt"] →
               load q = alloc (read_csv q TAB)) as Htab.
  { intros q Hq Hin. apply load_dataset_loaded; [done |].
    unfold loaded_table. cbn zeta.
    rewrite (bool_decide_eq_true_2 _ Hin).
    case_bool_decide as Hcsv; [| done].
    exfalso. apply elem_of_cons in Hcsv as [Hcsv | Hcsv%elem_of_nil]; [| done].
    rewrite Hcsv in Hin.
    repeat (apply elem_of_cons in Hin as [Hin | Hin]; [discriminate |]).
    by apply elem_of_nil in Hin. }
  split; [| split].
  - apply Htab; [done |]. rewrite Hext. by repeat constructor.
  - intros st. rewrite Htab; [done | done |]. rewrite Hext. by repeat constructor.
  - intros tsv Hq Htsv. apply Htab; [done |]. rewrite Htsv. by repeat constructor.
Qed.

End ScriptProperties.


Lemma load_dataset_txt_as_tsv_demo :
  load_dataset every_path_exists tab_reader sheet_reader "Data/genes.TXT"
  = alloc create_example_demo.
Proof.
  exact (proj1 (load_dataset_txt_as_tsv every_path_exists tab_reader
                  sheet_reader "Data/genes.TXT" eq_refl eq_refl)).
Defined.



(** The demo run saves the records of [demo_boolean_matrix]. *)
Example demo_matrix_prepared :
  main every_path_exists tab_reader sheet_reader demo_args initial_state =
  (Ok tt,
   mkState [create_example_demo; demo_boolean_matrix]
     [EPrint "Running in demo mode...";
      ESaveFig "upset_plot.png" (intersection_records demo_boolean_matrix);
      EPrint "UpSet plot saved as: upset_plot.png"]).
Proof. reflexivity. Qed.

(** * Further properties of the script *)

(** ** What [prepare_boolean_matrix] computes *)

Lemma normalize_cells_idem (vs : list value) :
  VBool ∘ normalize <$> (VBool ∘ normalize <$> vs) = VBool ∘ normalize <$> vs.
Proof.
  rewrite <- list_fmap_compose. apply list_fmap_ext. intros i x _. cbn.
  by rewrite normalize_bool.
Qed.

Lemma get_column_None (d : DataFrame) (col : string) :
  col ∉ df_columns d → get_column d col = None.
Proof.
  unfold df_columns, get_column.
  induction (series d) as [| [c vs] cols IH]; cbn; [done |].
  intros [Hne Hnin]%not_elem_of_cons.
  rewrite bool_decide_eq_false_2 by done. by apply IH.
Qed.

Lemma get_column_Some_columns (d : DataFrame) (col : string) (vs : list value) :
  get_column d col = Some vs → col ∈ df_columns d.
Proof.
  intros Hget. destruct (decide (col ∈ df_columns d)) as [| Hnin]; [done |].
  by rewrite (get_column_None _ _ Hnin) in Hget.
Qed.

Lemma map_label_absent (h : string * list value → string * list value)
    (c : string) (l : list (string * list value)) :
  c ∉ l.*1 →
  map (λ kv, if bool_decide (kv.1 = c) then h kv else kv) l = l.
Proof.
  induction l as [| [c' vs'] l IH]; cbn; [done |].
  intros [Hne Hnin]%not_elem_of_cons.
  rewrite bool_decide_eq_false_2 by done. by rewrite IH.
Qed.

Lemma normalize_in_series (x : DataFrame) (c : string) :
  NoDup (df_columns x) →
  series (normalize_in x c) =
    map (λ kv, if bool_decide (kv.1 = c)
               then (kv.1, VBool ∘ normalize <$> kv.2) else kv) (series x)
  ∧ nrows (normalize_in x c) = nrows x.
Proof.
  unfold normalize_in. intros Hnd.
  destruct (get_column x c) as [vs |] eqn:Hget; last first.
  { split; [| done]. rewrite map_label_absent; [done |].
    intros Hin. apply get_column_is_Some in Hin as [? ?]. congruence. }
  unfold set_column.
  rewrite bool_decide_eq_true_2 by (by eapply get_column_Some_columns).
  split; [| done]. cbn [series].
  revert Hnd Hget. unfold df_columns, get_column.
  induction (series x) as [| [c' vs'] l IH]; cbn; [done |].
  intros [Hnin Hnd]%NoDup_cons. case_bool_decide as Hc.
  - intros [= <-]. subst c'. f_equal.
    by rewrite !map_label_absent.
  - intros Hget. f_equal. by apply IH.
Qed.

Lemma normalize_in_columns (x : DataFrame) (c : string) :
  NoDup (df_columns x) → df_columns (normalize_in x c) = df_columns x.
Proof.
  intros Hnd. unfold df_columns.
  rewrite (proj1 (normalize_in_series x c Hnd)).
  induction (series x) as [| kv l IH]; cbn; [done |].
  rewrite IH. by case_bool_decide.
Qed.

Lemma normalize_all_series (x : DataFrame) (cs : list string) :
  NoDup (df_columns x) →
  series (normalize_all x cs) =
    map (λ kv, if bool_decide (kv.1 ∈ cs)
               then (kv.1, VBool ∘ normalize <$> kv.2) else kv) (series x)
  ∧ nrows (normalize_all x cs) = nrows x.
Proof.
  unfold normalize_all. revert x.
  induction cs as [| c cs IH]; intros x Hnd; cbn [foldl].
  { split; [| done]. rewrite <- (map_id (series x)) at 1.
    apply map_ext. intros kv. rewrite bool_decide_eq_false_2; [done |].
    by intros ?%elem_of_nil. }
  destruct (normalize_in_series x c Hnd) as [Hser Hrows].
  destruct (IH (normalize_in x c)) as [Hser' Hrows'].
  { by rewrite normalize_in_columns. }
  split; [| congruence].
  rewrite Hser', Hser, map_map. apply map_ext. intros [c' vs']. cbn.
  destruct (decide (c' = c)) as [-> | Hne].
  - rewrite (bool_decide_eq_true_2 (c = c)) by done. cbn.
    rewrite (bool_decide_eq_true_2 (c ∈ c :: cs)) by (by left).
    case_bool_decide; [by rewrite normalize_cells_idem | done].
  - rewrite (bool_decide_eq_false_2 (c' = c)) by done. cbn.
    rewrite (bool_decide_ext (c' ∈ c :: cs) (c' ∈ cs)); [done |].
    rewrite elem_of_cons. split; [by intros [? | ?] | by right].
Qed.

Lemma map_series_labels (g : list value → list value) (cs : list string)
    (l : list (string * list value)) :
  (map (λ kv, if bool_decide (kv.1 ∈ cs) then (kv.1, g kv.2) else kv) l).*1
  = l.*1.
Proof.
  induction l as [| kv l IH]; cbn; [done |].
  rewrite IH. by case_bool_decide.
Qed.

Lemma lookup_series_map (g : list value → list value) (cs : list string)
    (l : list (string * list value)) (c : string) :
  lookup_series
    (map (λ kv, if bool_decide (kv.1 ∈ cs) then (kv.1, g kv.2) else kv) l) c
  = (if bool_decide (c ∈ cs) then g else id) <$> lookup_series l c.
Proof.
  induction l as [| [c' vs'] l IH]; cbn; [done |].
  destruct (bool_decide (c' ∈ cs)) eqn:Hcs; cbn;
    destruct (bool_decide (c' = c)) eqn:Hc; cbn; try exact IH;
    apply bool_decide_eq_true in Hc as ->; by rewrite Hcs.
Qed.

Lemma lookup_series_unique (l : list (string * list value)) (c : string)
    (vs : list value) :
  NoDup l.*1 → (c, vs) ∈ l → lookup_series l c = Some vs.
Proof.
  induction l as [| [c' vs'] l IH]; cbn; [by intros _ ?%elem_of_nil |].
  intros [Hnin Hnd]%NoDup_cons [[= -> ->] | Hin]%elem_of_cons.
  - by rewrite bool_decide_eq_true_2.
  - case_bool_decide as Hc; [| by apply IH]. subst c'.
    exfalso. apply Hnin. by apply (list_elem_of_fmap_2 fst) in Hin.
Qed.

Lemma select_columns_self (x : DataFrame) :
  NoDup (df_columns x) → select_columns x (df_columns x) = Some x.
Proof.
  intros Hnd. unfold select_columns.
  rewrite (mapM_Some_2 _ _ ((λ kv, [kv]) <$> series x)).
  - cbn. f_equal. clear Hnd. destruct x as [n l]. cbn. f_equal.
    induction l as [| kv l IH]; cbn; [done |]. by f_equal.
  - unfold df_columns. apply Forall2_fmap_l, Forall2_fmap_r.
    apply Forall_Forall2_diag, Forall_forall.
    intros [c vs] Hin. cbn.
    assert (c ∈ (series x).*1) as Hc
      by (by apply (list_elem_of_fmap_2 fst) in Hin).
    destruct (filter_label_unique (series x) c Hnd Hc) as (vs' & Hone & Hget).
    rewrite (lookup_series_unique _ _ vs Hnd Hin) in Hget.
    injection Hget as <-. unfold columns_labelled. by rewrite Hone.
Qed.

Lemma normalize_columns_exact (m : loc) (cs : list string) (st : state)
    (x : DataFrame) :
  heap st !! m = Some x → NoDup (df_columns x) →
  (∀ c, c ∈ cs → c ∈ df_columns x) →
  for_each cs (normalize_column m) st =
    (Ok tt, mkState (<[m := normalize_all x cs]> (heap st)) (events st)).
Proof.
  revert st x. induction cs as [| c cs IH]; intros st x Hm Hnd Hcs;
    cbn [for_each].
  - unfold normalize_all. cbn. rewrite list_insert_id by done. by destruct st.
  - assert (c ∈ df_columns x) as Hc by (apply Hcs; by left).
    destruct (filter_label_unique (series x) c Hnd Hc) as (vs & Hone & Hvs).
    fold (get_column x c) in Hvs.
    rewrite (bind_run _ _ _ _ _ (normalize_column_run m c st x c vs Hm Hone)).
    rewrite (IH _ (normalize_in x c)).
    + cbn [heap events]. rewrite list_insert_insert_eq.
      unfold normalize_all. by cbn [foldl].
    + cbn [heap]. unfold normalize_in. rewrite Hvs.
      apply list_lookup_insert_eq. by eapply lookup_lt_Some.
    + unfold normalize_in. rewrite Hvs. by rewrite set_column_columns.
    + intros c' Hc'. unfold normalize_in. rewrite Hvs.
      rewrite set_column_columns by done. apply Hcs. by right.
Qed.

Lemma prepare_boolean_matrix_exact (df : loc) (cols : list string) (st : state)
    (d sel : DataFrame) :
  heap st !! df = Some d → select_columns d cols = Some sel →
  NoDup (df_columns sel) →
  prepare_boolean_matrix df cols st =
    (Ok (length (heap st)),
     mkState (heap st ++ [normalize_all sel cols]) (events st)).
Proof.
  intros Hdf Hsel Hnd.
  set (st1 := mkState (heap st ++ [sel]) (events st)).
  unfold prepare_boolean_matrix.
  rewrite (bind_run _ _ st st d); [| unfold read_frame; by rewrite Hdf].
  rewrite Hsel.
  rewrite (bind_run _ _ st st1 (length (heap st))); [| done].
  rewrite (bind_run _ _ st1
             (mkState (<[length (heap st) := normalize_all sel cols]> (heap st1))
                      (events st1)) tt).
  - cbn. rewrite insert_app_r_alt by done. by rewrite Nat.sub_diag.
  - apply normalize_columns_exact; [| done |].
    + cbn. by apply list_lookup_middle.
    + by apply select_columns_labels with d.
Qed.

Lemma prepared_matrix (df : loc) (cols : list string) (st : state)
    (d : DataFrame) :
  heap st !! df = Some d → NoDup (df_columns d) → NoDup cols →
  (∀ c, c ∈ cols → c ∈ df_columns d) →
  ∃ x : DataFrame,
    prepare_boolean_matrix df cols st =
      (Ok (length (heap st)), mkState (heap st ++ [x]) (events st)) ∧
    nrows x = nrows d ∧ df_columns x = cols ∧
    (∀ c, c ∈ cols →
       get_column x c =
         (λ vs : list value, VBool ∘ normalize <$> vs) <$> get_column d c) ∧
    (∀ i, row_members x i =
            List.filter (λ c, from_option normalize false (cell d i c)) cols).
Proof.
  intros Hdf Hndd Hnd Hcols.
  destruct (select_columns_Some d cols Hndd Hcols) as (sel & Hsel & Hselc).
  destruct (select_columns_inv d cols sel Hndd Hsel) as (Hrows & _ & Hget).
  assert (NoDup (df_columns sel)) as Hnd' by (by rewrite Hselc).
  destruct (normalize_all_series sel cols Hnd') as [Hser Hrows'].
  set (x := normalize_all sel cols). fold x in Hser, Hrows'.
  assert (df_columns x = cols) as Hxc.
  { unfold df_columns at 1.
    by rewrite Hser, (map_series_labels (λ vs : list value, VBool ∘ normalize <$> vs)). }
  assert (∀ c, c ∈ cols →
            get_column x c =
              (λ vs : list value, VBool ∘ normalize <$> vs) <$> get_column d c)
    as Hcells.
  { intros c Hc. unfold get_column at 1.
    rewrite Hser, (lookup_series_map (λ vs : list value, VBool ∘ normalize <$> vs)),
      bool_decide_eq_true_2 by done.
    fold (get_column sel c). by rewrite Hget. }
  exists x. split; [by apply prepare_boolean_matrix_exact with d |].
  split; [congruence |]. split; [done |]. split; [done |].
  intros i. unfold row_members. rewrite Hxc.
  apply filter_ext_in. intros c Hc%list_elem_of_In.
  unfold cell. rewrite (Hcells c Hc).
  destruct (get_column d c) as [vs |]; cbn; [| done].
  rewrite list_lookup_fmap. by destruct (vs !! i).
Qed.

(** X1: for a table with distinct labels that has the requested, distinct
    columns, [prepare_boolean_matrix] returns a new frame over the same
    index whose columns are the requested ones in the requested order, every
    cell being the boolean the normalizer gives for the cell of the table. *)
Theorem prepare_boolean_matrix_cells (df : loc) (cols : list string)
    (st : state) (d : DataFrame) :
  heap st !! df = Some d →
  NoDup (df_columns d) → NoDup cols →
  (∀ c, c ∈ cols → c ∈ df_columns d) →
  ∃ x : DataFrame,
    prepare_boolean_matrix df cols st =
      (Ok (length (heap st)), mkState (heap st ++ [x]) (events st)) ∧
    nrows x = nrows d ∧ df_columns x = cols ∧
    ∀ c, c ∈ cols →
      get_column x c =
        (λ vs : list value, VBool ∘ normalize <$> vs) <$> get_column d c.
Proof.
  intros Hdf Hndd Hnd Hcols.
  destruct (prepared_matrix df cols st d Hdf Hndd Hnd Hcols)
    as (x & Hrun & Hrows & Hxc & Hcells & _).
  by exists x.
Qed.

Lemma demo_labels_distinct : NoDup (df_columns create_example_demo).
Proof. apply (bool_decide_unpack _). exact I. Defined.

Lemma demo_columns_distinct : NoDup demo_columns.
Proof. apply (bool_decide_unpack _). exact I. Defined.

Lemma prepare_boolean_matrix_cells_demo :
  ∃ x : DataFrame,
    prepare_boolean_matrix 0%nat demo_columns demo_state =
      (Ok 1%nat, mkState [create_example_demo; x] []) ∧
    df_columns x = demo_columns.
Proof.
  destruct (prepare_boolean_matrix_cells 0%nat demo_columns demo_state
              create_example_demo eq_refl demo_labels_distinct
              demo_columns_distinct demo_columns_present)
    as (x & Hrun & _ & Hcols & _).
  exists x. split; [exact Hrun | exact Hcols].
Defined.

(** X2: when a requested label is not a column of the table,
    [prepare_boolean_matrix] stops with the [KeyError] of [df[columns]]:
    no frame is allocated and the store is as it was. *)
Theorem prepare_boolean_matrix_missing_column (df : loc) (cols : list string)
    (st : state) (d : DataFrame) (c : string) :
  heap st !! df = Some d → c ∈ cols → c ∉ df_columns d →
  prepare_boolean_matrix df cols st = (Raise "KeyError", st).
Proof.
  intros Hdf Hin Hnin.
  assert (select_columns d cols = None) as Hsel.
  { unfold select_columns. rewrite (mapM_None_2 _ cols); [done |].
    apply Exists_exists. exists c. split; [done |].
    unfold columns_labelled. by rewrite filter_label_absent. }
  unfold prepare_boolean_matrix.
  rewrite (bind_run _ _ st st d); [| unfold read_frame; by rewrite Hdf].
  by rewrite Hsel.
Qed.

Lemma prepare_boolean_matrix_missing_column_demo :
  prepare_boolean_matrix 0%nat ["Condition_A"; "Condition_D"] demo_state
  = (Raise "KeyError", demo_state).
Proof.
  apply (prepare_boolean_matrix_missing_column 0%nat _ demo_state
           create_example_demo "Condition_D" eq_refl).
  - by repeat constructor.
  - apply (bool_decide_unpack _). exact I.
Defined.

(** X3: preparing the matrix a second time over the same columns gives a
    second frame equal to the first: the normalizer leaves booleans as they
    are. *)
Theorem prepare_boolean_matrix_idempotent (df : loc) (cols : list string)
    (st : state) (d : DataFrame) :
  heap st !! df = Some d →
  NoDup (df_columns d) → NoDup cols →
  (∀ c, c ∈ cols → c ∈ df_columns d) →
  ∃ x : DataFrame,
    prepare_boolean_matrix df cols st =
      (Ok (length (heap st)), mkState (heap st ++ [x]) (events st)) ∧
    prepare_boolean_matrix (length (heap st)) cols
        (mkState (heap st ++ [x]) (events st)) =
      (Ok (S (length (heap st))), mkState (heap st ++ [x; x]) (events st)).
Proof.
  intros Hdf Hndd Hnd Hcols.
  destruct (select_columns_Some d cols Hndd Hcols) as (sel & Hsel & Hselc).
  assert (NoDup (df_columns sel)) as Hnd' by (by rewrite Hselc).
  destruct (normalize_all_series sel cols Hnd') as [Hser Hrows].
  set (x := normalize_all sel cols).
  assert (df_columns x = cols) as Hxc.
  { unfold df_columns at 1. fold x in Hser.
    by rewrite Hser, (map_series_labels (λ vs : list value, VBool ∘ normalize <$> vs)). }
  assert (NoDup (df_columns x)) as Hndx by (by rewrite Hxc).
  assert (normalize_all x cols = x) as Hidem.
  { destruct (normalize_all_series x cols Hndx) as [Hser2 Hrows2].
    assert (series (normalize_all x cols) = series x) as Heq.
    { rewrite Hser2. fold x in Hser. rewrite Hser, map_map.
      apply map_ext. intros [c vs]. cbn.
      destruct (bool_decide (c ∈ cols)) eqn:Hc; cbn; rewrite Hc; [| done].
      by rewrite normalize_cells_idem. }
    destruct (normalize_all x cols), x. cbn in *. congruence. }
  exists x. split; [by apply prepare_boolean_matrix_exact with d |].
  rewrite (prepare_boolean_matrix_exact _ cols _ x x).
  - cbn [heap events]. rewrite Hidem, length_app, <- app_assoc. cbn.
    by rewrite Nat.add_1_r.
  - cbn [heap]. by apply list_lookup_middle.
  - rewrite <- Hxc at 1. by apply select_columns_self.
  - done.
Qed.

Lemma prepare_boolean_matrix_idempotent_demo :
  ∃ x : DataFrame,
    prepare_boolean_matrix 1%nat demo_columns
      (mkState [create_example_demo; x] []) =
    (Ok 2%nat, mkState [create_example_demo; x; x] []).
Proof.
  destruct (prepare_boolean_matrix_idempotent 0%nat demo_columns demo_state
              create_example_demo eq_refl demo_labels_distinct
              demo_columns_distinct demo_columns_present)
    as (x & _ & Hrun).
  exists x. exact Hrun.
Defined.

(** X4: in the matrix [prepare_boolean_matrix] returns, the membership list
    that [plot_upset] builds for a row holds the requested labels whose cell
    in the table is one of the true literals, in the requested order. *)
Theorem prepared_row_members (df : loc) (cols : list string)
    (st : state) (d : DataFrame) :
  heap st !! df = Some d →
  NoDup (df_columns d) → NoDup cols →
  (∀ c, c ∈ cols → c ∈ df_columns d) →
  ∃ x : DataFrame,
    prepare_boolean_matrix df cols st =
      (Ok (length (heap st)), mkState (heap st ++ [x]) (events st)) ∧
    ∀ i, row_members x i =
           List.filter (λ c, from_option normalize false (cell d i c)) cols.
Proof.
  intros Hdf Hndd Hnd Hcols.
  destruct (prepared_matrix df cols st d Hdf Hndd Hnd Hcols)
    as (x & Hrun & _ & _ & _ & Hmem).
  by exists x.
Qed.

Lemma prepared_row_members_demo :
  ∃ x : DataFrame,
    prepare_boolean_matrix 0%nat demo_columns demo_state =
      (Ok 1%nat, mkState [create_example_demo; x] []) ∧
    row_members x 0%nat = ["Condition_A"; "Condition_C"].
Proof.
  destruct (prepared_row_members 0%nat demo_columns demo_state
              create_example_demo eq_refl demo_labels_distinct
              demo_columns_distinct demo_columns_present)
    as (x & Hrun & Hrows).
  exists x. split; [exact Hrun | exact (Hrows 0%nat)].
Defined.

(** X5: [prepare_boolean_matrix] has no check for an empty column list: it
    returns a frame with no column over the index of the table. *)
Theorem prepare_boolean_matrix_no_columns (df : loc) (st : state)
    (d : DataFrame) :
  heap st !! df = Some d →
  prepare_boolean_matrix df [] st =
    (Ok (length (heap st)),
     mkState (heap st ++ [mkDataFrame (nrows d) []]) (events st)).
Proof.
  apply prepare_boolean_matrix_nil.
Qed.

Lemma prepare_boolean_matrix_no_columns_demo :
  prepare_boolean_matrix 0%nat [] demo_state =
  (Ok 1%nat, mkState [create_example_demo; mkDataFrame 6 []] []).
Proof.
  exact (prepare_boolean_matrix_no_columns 0%nat demo_state create_example_demo
           eq_refl).
Defined.

Lemma columns_labelled_set_column (x : DataFrame) (col c : string)
    (vs : list value) :
  col ∈ df_columns x →
  length (columns_labelled (set_column x col vs) c)
  = length (columns_labelled x c).
Proof.
  intros Hin. unfold set_column. rewrite bool_decide_eq_true_2 by done.
  unfold columns_labelled. cbn [series]. clear Hin.
  induction (series x) as [| [c' vs'] l IH]; cbn; [done |].
  destruct (decide (c' = col)) as [-> | Hne].
  - rewrite (bool_decide_eq_true_2 (col = col)) by done. cbn.
    destruct (bool_decide (col = c)); cbn; by rewrite IH.
  - rewrite (bool_decide_eq_false_2 (c' = col)) by done. cbn.
    destruct (bool_decide (c' = c)); cbn; by rewrite IH.
Qed.

Lemma columns_labelled_length (x : DataFrame) (c : string) :
  length (columns_labelled x c)
  = length (List.filter (λ y, bool_decide (y = c)) (df_columns x)).
Proof.
  unfold columns_labelled, df_columns.
  induction (series x) as [| [c' vs'] l IH]; cbn; [done |].
  destruct (bool_decide (c' = c)); cbn; by rewrite IH.
Qed.

Lemma occurs_once_NoDup (l : list string) :
  (∀ c, c ∈ l → length (List.filter (λ y, bool_decide (y = c)) l) = 1%nat) →
  NoDup l.
Proof.
  induction l as [| a l IH]; intros Hone; [constructor |].
  assert (a ∉ l) as Hnin.
  { intros Hin. specialize (Hone a (list_elem_of_here a l)). cbn in Hone.
    rewrite bool_decide_eq_true_2 in Hone by done. cbn in Hone.
    apply list_elem_of_In in Hin.
    destruct (List.filter (λ y, bool_decide (y = a)) l) as [| b k] eqn:Hf;
      [| done].
    assert (In a (List.filter (λ y, bool_decide (y = a)) l)) as Hin'
      by (apply filter_In; split; [done | by apply bool_decide_eq_true]).
    by rewrite Hf in Hin'. }
  constructor; [done |]. apply IH. intros c Hc.
  specialize (Hone c (list_elem_of_further c a l Hc)). cbn in Hone.
  rewrite bool_decide_eq_false_2 in Hone; [done |].
  intros ->. done.
Qed.

Lemma normalize_columns_Ok_unique (m : loc) (cs : list string)
    (st st' : state) (x : DataFrame) :
  heap st !! m = Some x →
  (∀ c, c ∈ cs → c ∈ df_columns x) →
  for_each cs (normalize_column m) st = (Ok tt, st') →
  ∀ c, c ∈ cs → length (columns_labelled x c) = 1%nat.
Proof.
  revert st x. induction cs as [| c cs IH]; intros st x Hm Hcs Hrun;
    [by intros c ?%elem_of_nil |].
  cbn [for_each] in Hrun.
  assert (c ∈ df_columns x) as Hc by (apply Hcs; by left).
  pose proof (filter_label_present (series x) c Hc) as Hne.
  destruct (columns_labelled x c) as [| [c1 vs1] [| kv2 rest]] eqn:Hlab;
    [done | |].
  - rewrite (bind_run _ _ _ _ _ (normalize_column_run m c st x c1 vs1 Hm Hlab))
      in Hrun.
    intros c0 [-> | Hc0]%elem_of_cons; [by rewrite Hlab |].
    rewrite <- (columns_labelled_set_column x c c0 (VBool ∘ normalize <$> vs1))
      by done.
    eapply IH; [| | exact Hrun | done].
    + cbn. apply list_lookup_insert_eq. by eapply lookup_lt_Some.
    + intros c' Hc'. rewrite set_column_columns by done. apply Hcs. by right.
  - rewrite (bind_raise _ _ st st "TypeError") in Hrun; [done |].
    unfold normalize_column.
    rewrite (bind_run _ _ st st x); [by rewrite Hlab |].
    unfold read_frame. by rewrite Hm.
Qed.

Lemma prepare_repeated_label (df : loc) (cols : list string) (st : state)
    (d : DataFrame) :
  heap st !! df = Some d → NoDup (df_columns d) →
  (∀ c, c ∈ cols → c ∈ df_columns d) → ¬ NoDup cols →
  ∃ st',
    prepare_boolean_matrix df cols st = (Raise "TypeError", st') ∧
    events st' = events st.
Proof.
  intros Hdf Hndd Hcols Hdup.
  destruct (prepare_boolean_matrix df cols st) as [r st'] eqn:Hrun.
  destruct (prepare_boolean_matrix_touches _ _ _ _ _ Hrun) as (_ & Hev & _).
  exists st'. split; [| done]. f_equal.
  destruct (prepare_boolean_matrix_result df cols st d Hdf Hcols)
    as [Hok | Herr]; rewrite Hrun in *; cbn [fst] in *; [| done].
  exfalso. apply Hdup. subst r.
  destruct (select_columns_Some d cols Hndd Hcols) as (sel & Hsel & Hselc).
  set (st1 := mkState (heap st ++ [sel]) (events st)).
  unfold prepare_boolean_matrix in Hrun.
  rewrite (bind_run _ _ st st d) in Hrun;
    [| unfold read_frame; by rewrite Hdf].
  rewrite Hsel in Hrun.
  rewrite (bind_run _ _ st st1 (length (heap st))) in Hrun; [| done].
  destruct (for_each cols (normalize_column (length (heap st))) st1)
    as [[[] | msg | e] st2] eqn:Hloop.
  - apply occurs_once_NoDup. intros c Hc.
    rewrite <- Hselc, <- columns_labelled_length.
    eapply (normalize_columns_Ok_unique _ cols st1 st2 sel); [| | done | done].
    + cbn. by apply list_lookup_middle.
    + by rewrite Hselc.
  - by rewrite (bind_exit _ _ _ _ _ Hloop) in Hrun.
  - by rewrite (bind_raise _ _ _ _ _ Hloop) in Hrun.
Qed.


Lemma twice_not_distinct (c : string) (l : list string) : ¬ NoDup (c :: c :: l).
Proof. intros [Hnin _]%NoDup_cons. apply Hnin. by left. Defined.


(** ** The driver, end to end *)

Section DriverProperties.

Variable os_path_exists : string → bool.
Variable read_csv : string → string → DataFrame.
Variable read_excel : string → DataFrame.

Local Abbreviation table := (loaded_table read_csv read_excel).
Local Abbreviation input := (main_input os_path_exists read_csv read_excel).
Local Abbreviation run := (main os_path_exists read_csv read_excel).

Lemma main_input_demo (args : Args) (st : state) :
  demo args = true →
  input args st =
    (Ok (length (heap st), demo_columns),
     mkState (heap st ++ [create_example_demo])
             (events st ++ [EPrint "Running in demo mode..."])).
Proof. intros Hdemo. unfold main_input. by rewrite Hdemo. Qed.

Lemma main_input_loaded (args : Args) (st : state) (path : string)
    (d : DataFrame) :
  demo args = false → file_given args = Some path →
  os_path_exists path = true → table path = Some d →
  input args st =
    (match columns_given args with
     | None => SysExit "Specify column names using --columns."
     | Some cols =>
         match first_missing d cols with
         | Some c => SysExit ("Error: Column not found → " +:+ c)
         | None => Ok (length (heap st), cols)
         end
     end, mkState (heap st ++ [d]) (events st)).
Proof.
  intros Hdemo Hfile Hex Ht. unfold main_input, columns_given.
  rewrite Hdemo. unfold file_given in Hfile.
  destruct (file args) as [[| a p] |]; try discriminate.
  injection Hfile as <-.
  rewrite (load_dataset_loaded os_path_exists read_csv read_excel _ d Hex Ht).
  set (st1 := mkState (heap st ++ [d]) (events st)).
  rewrite (bind_run _ _ st st1 (length (heap st))); [| done].
  destruct (columns args) as [[| c cols] |]; try done.
  assert (heap st1 !! length (heap st) = Some d) as Hd
    by (by apply list_lookup_middle).
  pose proof (check_columns_run (length (heap st)) (c :: cols) st1 d Hd)
    as Hcheck.
  destruct (first_missing d (c :: cols)) as [c' |].
  - by apply bind_exit.
  - by rewrite (bind_run _ _ _ _ _ Hcheck).
Qed.

(** X6: with [--demo] the run does not look at [--file], at [--columns] or
    at the file system: it loads the built-in table, builds the matrix of
    the three condition columns and saves its plot at [--output]. *)
Theorem demo_ignores_command_line (args : Args) (st : state) :
  demo args = true →
  run args st =
    (Ok tt,
     mkState (heap st ++ [create_example_demo; demo_boolean_matrix])
       (events st ++
          [EPrint "Running in demo mode...";
           ESaveFig (output args) (intersection_records demo_boolean_matrix);
           EPrint ("UpSet plot saved as: " +:+ output args)])).
Proof.
  intros Hdemo. unfold main.
  rewrite (bind_run _ _ _ _ _ (main_input_demo args st Hdemo)). cbn beta iota.
  set (st1 := mkState (heap st ++ [create_example_demo])
                (events st ++ [EPrint "Running in demo mode..."])).
  assert (heap st1 !! length (heap st) = Some create_example_demo) as Hd
    by (by apply list_lookup_middle).
  assert (NoDup (df_columns (mkDataFrame 6 (tail (series create_example_demo)))))
    as Hnd by (apply (bool_decide_unpack _); exact I).
  rewrite (bind_run _ _ _ _ _
             (prepare_boolean_matrix_exact _ demo_columns st1
                create_example_demo _ Hd eq_refl Hnd)).
  change (normalize_all _ demo_columns) with demo_boolean_matrix.
  rewrite (plot_upset_run _ _ _ demo_boolean_matrix);
    [| by apply list_lookup_middle].
  subst st1. cbn [heap events]. by rewrite <- !app_assoc.
Qed.

(** X7: [main] never reaches the [KeyError] of [prepare_boolean_matrix]:
    whenever the set-up of [df] and [columns] goes through, every requested
    label has been checked against the table, so [df[columns]] finds them
    all and the call returns or raises [TypeError]. *)
Theorem main_never_raises_KeyError (args : Args) (st st1 : state) (df : loc)
    (cols : list string) :
  input args st = (Ok (df, cols), st1) →
  (prepare_boolean_matrix df cols st1).1 ≠ Raise "KeyError".
Proof.
  intros Hin.
  destruct (main_input_run os_path_exists read_csv read_excel args st)
    as [(df' & cols' & d & st1' & Hin' & Hdf & Hcols & _)
       | (msg & st1' & Hin' & _)]; rewrite Hin in Hin'; [| done].
  injection Hin' as <- <- <-.
  by destruct (prepare_boolean_matrix_result df cols st1 d Hdf Hcols)
    as [-> | ->].
Qed.

(** X8: the table is read before [--columns] is looked at: when the file
    loads and no column is given, the run stops with the message about
    [--columns] and the loaded table is already in the store. *)
Theorem columns_checked_after_loading (args : Args) (st : state)
    (path : string) (d : DataFrame) :
  demo args = false → file_given args = Some path →
  os_path_exists path = true → table path = Some d →
  columns_given args = None →
  run args st =
    (SysExit "Specify column names using --columns.",
     mkState (heap st ++ [d]) (events st)).
Proof.
  intros Hdemo Hfile Hex Ht Hcols. unfold main. apply bind_exit.
  by rewrite (main_input_loaded args st path d Hdemo Hfile Hex Ht), Hcols.
Qed.


End DriverProperties.

Lemma demo_ignores_command_line_demo :
  main every_path_exists tab_reader sheet_reader demo_args initial_state =
  (Ok tt,
   mkState [create_example_demo; demo_boolean_matrix]
     [EPrint "Running in demo mode...";
      ESaveFig "upset_plot.png" (intersection_records demo_boolean_matrix);
      EPrint "UpSet plot saved as: upset_plot.png"]).
Proof.
  exact (demo_ignores_command_line every_path_exists tab_reader sheet_reader
           demo_args initial_state eq_refl).
Defined.

Lemma main_never_raises_KeyError_genes :
  (prepare_boolean_matrix 0%nat ["Condition_A"; "Condition_A"; "Condition_B"]
     (mkState [create_example_demo] [])).1 ≠ Raise "KeyError".
Proof.
  exact (main_never_raises_KeyError every_path_exists tab_reader sheet_reader
           repeated_label_args initial_state (mkState [create_example_demo] [])
           0%nat ["Condition_A"; "Condition_A"; "Condition_B"] eq_refl).
Defined.


Lemma columns_checked_after_loading_genes :
  main every_path_exists tab_reader sheet_reader no_columns_args initial_state
  = (SysExit "Specify column names using --columns.",
     mkState [create_example_demo] []).
Proof.
  exact (columns_checked_after_loading every_path_exists tab_reader
           sheet_reader no_columns_args initial_state "Data/genes.TXT"
           create_example_demo eq_refl eq_refl eq_refl eq_refl eq_refl).
Defined.


(** ** Extensions *)

Lemma chars_append (a b : string) : chars (a +:+ b) = chars a ++ chars b.
Proof.
  unfold chars. induction a as [| x a IH]; [done |].
  cbn [list_ascii_of_string app]. by rewrite <- IH.
Qed.

Lemma after_last_None (c : ascii) (l : list ascii) :
  c ∉ l → after_last c l = None.
Proof.
  induction l as [| x l IH]; cbn; [done |].
  intros [Hne Hnin]%not_elem_of_cons. rewrite IH by done.
  destruct (Ascii.eqb_spec x c); congruence.
Qed.

Lemma after_last_app (c : ascii) (l1 l2 : list ascii) :
  c ∉ l2 → after_last c (l1 ++ c :: l2) = Some l2.
Proof.
  intros Hnin. induction l1 as [| x l1 IH]; cbn.
  - by rewrite after_last_None, Ascii.eqb_refl.
  - by rewrite IH.
Qed.

Lemma basename_chars (prefix name : string) :
  is_dir_prefix prefix → "/"%char ∉ chars name →
  default (chars (prefix +:+ name)) (after_last "/" (chars (prefix +:+ name)))
  = chars name.
Proof.
  intros [-> | [dir ->]] Hname.
  - cbn. by rewrite after_last_None.
  - rewrite !chars_append. cbn. rewrite <- app_assoc. cbn.
    by rewrite after_last_app.
Qed.

Lemma drop_leading_dots_app (stem l : list ascii) :
  (∃ x, x ∈ stem ∧ x ≠ "."%char) →
  drop_leading_dots (stem ++ l) = drop_leading_dots stem ++ l.
Proof.
  induction stem as [| y stem IH]; intros (x & Hin & Hx).
  - by apply elem_of_nil in Hin.
  - cbn. destruct (Ascii.eqb_spec y ".") as [-> | Hy]; [| done].
    apply IH. apply elem_of_cons in Hin as [-> | Hin]; [done |]. eauto.
Qed.

Lemma drop_leading_dots_replicate (n : nat) (l : list ascii) :
  drop_leading_dots (replicate n "."%char ++ l) = drop_leading_dots l.
Proof. induction n as [| n IH]; cbn; [done | exact IH]. Qed.

Lemma drop_leading_dots_no_dot (l : list ascii) :
  "."%char ∉ l → drop_leading_dots l = l.
Proof.
  destruct l as [| x l]; cbn; [done |].
  intros [Hne _]%not_elem_of_cons.
  destruct (Ascii.eqb_spec x "."); congruence.
Qed.

Lemma splitext_ext_dotted (prefix stem ext : string) :
  is_dir_prefix prefix →
  "/"%char ∉ chars stem → (∃ x, x ∈ chars stem ∧ x ≠ "."%char) →
  "/"%char ∉ chars ext → "."%char ∉ chars ext →
  splitext_ext (prefix +:+ stem +:+ "." +:+ ext) = String "." ext.
Proof.
  intros Hpre Hstem Hnondot Hext1 Hext2. unfold splitext_ext. cbn zeta.
  fold (chars (prefix +:+ stem +:+ "." +:+ ext)).
  rewrite basename_chars; [| done |].
  - rewrite !chars_append. cbn [chars list_ascii_of_string app].
    rewrite drop_leading_dots_app, after_last_app by done.
    unfold chars. cbn [string_of_list_ascii].
    by rewrite string_of_list_ascii_of_string.
  - rewrite !chars_append. cbn [chars list_ascii_of_string app].
    rewrite elem_of_app, elem_of_cons. intros [? | [? | ?]]; done.
Qed.

Lemma splitext_ext_plain (prefix stem : string) (n : nat) :
  is_dir_prefix prefix →
  "/"%char ∉ chars stem → "."%char ∉ chars stem →
  splitext_ext (prefix +:+ dots n +:+ stem) = "".
Proof.
  intros Hpre Hstem Hnodot. unfold splitext_ext. cbn zeta.
  fold (chars (prefix +:+ dots n +:+ stem)).
  assert (chars (dots n +:+ stem) = replicate n "."%char ++ chars stem) as Hname.
  { rewrite chars_append. unfold dots, chars.
    by rewrite list_ascii_of_string_of_list_ascii. }
  rewrite basename_chars; [| done |].
  - rewrite Hname, drop_leading_dots_replicate, drop_leading_dots_no_dot by done.
    by rewrite after_last_None.
  - rewrite Hname, elem_of_app. intros [Hin%elem_of_replicate | ?]; [| done].
    by destruct Hin.
Qed.

Lemma lower_dotted (ext : string) : lower (String "." ext) = String "." (lower ext).
Proof. reflexivity. Qed.

Lemma elem_of_dotted (e : string) (l : list string) :
  String "."%char e ∈ (String "."%char <$> l) ↔ e ∈ l.
Proof.
  rewrite list_elem_of_fmap. split.
  - by intros (y & [= ->] & ?).
  - intros ?. by exists e.
Qed.

Section LoaderProperties.

Variable os_path_exists : string → bool.
Variable read_csv : string → string → DataFrame.
Variable read_excel : string → DataFrame.

Local Abbreviation load := (load_dataset os_path_exists read_csv read_excel).

(** X10: for an existing file named [stem.ext], alone or under a
    directory, the loader chooses the reader by the part after the last dot
    of the file name, whatever its case: the comma reader for csv, the tab
    reader for tsv and txt, the spreadsheet reader for xls and xlsx, and the
    exit for anything else. *)
Theorem load_dataset_by_extension (prefix stem ext : string) :
  is_dir_prefix prefix →
  "/"%char ∉ chars stem → (∃ x, x ∈ chars stem ∧ x ≠ "."%char) →
  "/"%char ∉ chars ext → "."%char ∉ chars ext →
  os_path_exists (prefix +:+ stem +:+ "." +:+ ext) = true →
  load (prefix +:+ stem +:+ "." +:+ ext) =
    let path := prefix +:+ stem +:+ "." +:+ ext in
    if bool_decide (lower ext ∈ ["csv"]) then alloc (read_csv path ",")
    else if bool_decide (lower ext ∈ ["tsv"; "txt"])
         then alloc (read_csv path TAB)
    else if bool_decide (lower ext ∈ ["xls"; "xlsx"])
         then alloc (read_excel path)
    else sys_exit "Unsupported file format. Use CSV/TSV/Excel.".
Proof.
  intros Hpre Hstem Hnondot Hext1 Hext2 Hex. unfold load_dataset.
  rewrite Hex. cbn [negb]. cbn zeta.
  rewrite splitext_ext_dotted, lower_dotted by done.
  change [".csv"] with (String "."%char <$> ["csv"]).
  change [".tsv"; ".txt"] with (String "."%char <$> ["tsv"; "txt"]).
  change [".xls"; ".xlsx"] with (String "."%char <$> ["xls"; "xlsx"]).
  by rewrite !(bool_decide_ext _ _ (elem_of_dotted _ _)).
Qed.

(** X11: an existing file whose name has no dot after its leading dots,
    such as [README], [.csv] or [results.d/table], has no extension for the
    loader, which exits with the message about the format and reads
    nothing. *)
Theorem load_dataset_without_extension (prefix stem : string) (n : nat)
    (st : state) :
  is_dir_prefix prefix →
  "/"%char ∉ chars stem → "."%char ∉ chars stem →
  os_path_exists (prefix +:+ dots n +:+ stem) = true →
  load (prefix +:+ dots n +:+ stem) st =
    (SysExit "Unsupported file format. Use CSV/TSV/Excel.", st).
Proof.
  intros Hpre Hstem Hnodot Hex. unfold load_dataset.
  rewrite Hex. cbn [negb]. cbn zeta.
  by rewrite splitext_ext_plain.
Qed.

End LoaderProperties.

Lemma genes_stem_chars :
  ("/"%char ∉ chars "genes") ∧ (∃ x, x ∈ chars "genes" ∧ x ≠ "."%char) ∧
  ("/"%char ∉ chars "TXT") ∧ ("."%char ∉ chars "TXT").
Proof.
  split; [apply (bool_decide_unpack _); exact I |].
  split; [exists "g"%char; split; [by left | discriminate] |].
  split; apply (bool_decide_unpack _); exact I.
Defined.

Lemma load_dataset_by_extension_genes :
  load_dataset every_path_exists tab_reader sheet_reader "Data/genes.TXT"
  = alloc create_example_demo.
Proof.
  exact (load_dataset_by_extension every_path_exists tab_reader sheet_reader
           "Data/" "genes" "TXT" (or_intror (ex_intro _ "Data" eq_refl))
           (proj1 genes_stem_chars) (proj1 (proj2 genes_stem_chars))
           (proj1 (proj2 (proj2 genes_stem_chars)))
           (proj2 (proj2 (proj2 genes_stem_chars))) eq_refl).
Defined.

Lemma load_dataset_without_extension_hidden :
  load_dataset every_path_exists tab_reader sheet_reader "Data/.csv"
    initial_state
  = (SysExit "Unsupported file format. Use CSV/TSV/Excel.", initial_state).
Proof.
  apply (load_dataset_without_extension every_path_exists tab_reader
           sheet_reader "Data/" "csv" 1 initial_state).
  - right. by exists "Data".
  - apply (bool_decide_unpack _). exact I.
  - apply (bool_decide_unpack _). exact I.
  - reflexivity.
Defined.
